(** * Runtime: the call boundary of the WAVM runtime

    A shallow embedding of [Source/Runtime/Runtime.cpp]: the call-stack
    describer, the exception factory, the type-conformance check [isA], the
    invocation bridge [invokeFunction] and the global cell, followed by the
    properties of that code.

    Conventions.
    - [uint64] and [uintp] are machine integers, carried as [Z]; the code
      only copies and compares them, it never does arithmetic on them.
    - [std::vector] is [list]; [v.size()] is [length]; [v[i]] is stdpp's
      lookup; an in-place store [v[i] = x] is stdpp's insert.  Vector sizes
      are natural numbers: a vector never holds [2^64 - 1] elements, so the
      [size_t] sums and differences of sizes in the code do not wrap.
    - A C++ function with effects (throwing, logging, calling into native
      code, terminating the process) is a computation in the monad [M],
      which records the sequence of effects and the way the call ended. *)

From Stdlib Require Import ZArith Ascii String.
From stdpp Require Import base decidable option list strings gmap.

Definition uint64 : Type := Z.
Definition uintp : Type := Z.

Section Runtime.

(** The enumerations [ValueType] and [TableElementType] are declared outside
    this translation unit.  The code below only compares their members for
    equality, so they are kept abstract. *)
Context {ValueType : Type} `{ValueType_eq_dec : !EqDecision ValueType}.
Context {TableElementType : Type}
        `{TableElementType_eq_dec : !EqDecision TableElementType}.

(** ** Types of the data model *)

(** [ResultType]: no result ([ResultType::none], the member the code tests
    for) or exactly one value type. *)
Inductive ResultType : Type :=
| ResultType_none
| ResultType_value (t : ValueType).

#[global] Instance ResultType_eq_dec : EqDecision ResultType.
Proof. solve_decision. Defined.

(** Modelled from the spec: [getArity], declared outside this translation
    unit; the number of result values of a signature, 0 or 1. *)
Definition getArity (returnType : ResultType) : nat :=
  match returnType with
  | ResultType_none => 0
  | ResultType_value _ => 1
  end.

Record FunctionType : Type := mkFunctionType {
  FunctionType_parameters : list ValueType;
  FunctionType_ret : ResultType
}.

#[global] Instance FunctionType_eq_dec : EqDecision FunctionType.
Proof. solve_decision. Defined.

Record GlobalType : Type := mkGlobalType {
  GlobalType_valueType : ValueType;
  GlobalType_isMutable : bool
}.

#[global] Instance GlobalType_eq_dec : EqDecision GlobalType.
Proof. solve_decision. Defined.

Record SizeConstraints : Type := mkSizeConstraints {
  SizeConstraints_min : uint64;
  SizeConstraints_max : uint64
}.

(** Modelled from the spec: [isSubset], declared with [SizeConstraints]
    outside this translation unit.  [isSubset super sub] holds when the range
    of [sub] lies entirely within the range of [super]. *)
Definition isSubset (super sub : SizeConstraints) : bool :=
  (SizeConstraints_min super <=? SizeConstraints_min sub)%Z
  && (SizeConstraints_max sub <=? SizeConstraints_max super)%Z.

Record TableType : Type := mkTableType {
  TableType_elementType : TableElementType;
  TableType_size : SizeConstraints
}.

Record MemoryType : Type := mkMemoryType {
  MemoryType_size : SizeConstraints
}.

Inductive ObjectKind : Type :=
| ObjectKind_function
| ObjectKind_global
| ObjectKind_table
| ObjectKind_memory.

#[global] Instance ObjectKind_eq_dec : EqDecision ObjectKind.
Proof. solve_decision. Defined.

(** [ObjectType] is a [kind] tag and a union with one member per kind. *)
Inductive ObjectType : Type :=
| ObjectType_function (function : FunctionType)
| ObjectType_global (global : GlobalType)
| ObjectType_table (table : TableType)
| ObjectType_memory (memory : MemoryType).

Definition ObjectType_kind (type : ObjectType) : ObjectKind :=
  match type with
  | ObjectType_function _ => ObjectKind_function
  | ObjectType_global _ => ObjectKind_global
  | ObjectType_table _ => ObjectKind_table
  | ObjectType_memory _ => ObjectKind_memory
  end.

(** ** Values *)

(** A [Value] is a type tag and a raw 64-bit payload ([.i64] reads all of
    it). *)
Record Value : Type := mkValue {
  Value_type : ValueType;
  Value_i64 : uint64
}.

Record Result : Type := mkResult {
  Result_type : ResultType;
  Result_i64 : uint64
}.

(** Modelled from the spec: the default-constructed, empty [Result]. *)
Definition emptyResult : Result := mkResult ResultType_none 0%Z.

(** ** Runtime objects *)

Record FunctionInstance : Type := mkFunctionInstance {
  FunctionInstance_type : FunctionType;
  FunctionInstance_nativeFunction : uintp
}.

(** A global stores its type and the untagged payload of its value:
    [getGlobalValue] rebuilds the [Value] from the two. *)
Record GlobalInstance : Type := mkGlobalInstance {
  GlobalInstance_type : GlobalType;
  GlobalInstance_value : uint64
}.

Record TableInstance : Type := mkTableInstance {
  TableInstance_type : TableType
}.

Record MemoryInstance : Type := mkMemoryInstance {
  MemoryInstance_type : MemoryType
}.

(** An [Object*] points to one of the four instance structs; its [kind]
    field says which. *)
Inductive Object : Type :=
| Object_function (function : FunctionInstance)
| Object_global (global : GlobalInstance)
| Object_table (table : TableInstance)
| Object_memory (memory : MemoryInstance).

Definition Object_kind (object : Object) : ObjectKind :=
  match object with
  | Object_function _ => ObjectKind_function
  | Object_global _ => ObjectKind_global
  | Object_table _ => ObjectKind_table
  | Object_memory _ => ObjectKind_memory
  end.

(** The checked down-casts [asFunction], [asGlobal], [asTable], [asMemory]:
    [None] stands for a cast of an object of another kind. *)
Definition asFunction (object : Object) : option FunctionInstance :=
  match object with Object_function f => Some f | _ => None end.

Definition asGlobal (object : Object) : option GlobalInstance :=
  match object with Object_global g => Some g | _ => None end.

Definition asTable (object : Object) : option TableInstance :=
  match object with Object_table t => Some t | _ => None end.

Definition asMemory (object : Object) : option MemoryInstance :=
  match object with Object_memory m => Some m | _ => None end.

(** ** [isA] *)

(** The kind test comes first; the [switch] then casts the object to the
    struct of its kind.  After the kind test a cast cannot fail; the [None]
    arms below are those dead paths (see [isA_cast_succeeds]). *)
Definition isA (object : Object) (type : ObjectType) : bool :=
  if bool_decide (ObjectType_kind type ≠ Object_kind object) then false
  else
    match type with
    | ObjectType_function function =>
        match asFunction object with
        | Some f => bool_decide (function = FunctionInstance_type f)
        | None => false
        end
    | ObjectType_global global =>
        match asGlobal object with
        | Some g => bool_decide (global = GlobalInstance_type g)
        | None => false
        end
    | ObjectType_table tableType =>
        match asTable object with
        | Some table =>
            bool_decide (TableType_elementType tableType
                         = TableType_elementType (TableInstance_type table))
            && isSubset (TableType_size tableType)
                        (TableType_size (TableInstance_type table))
        | None => false
        end
    | ObjectType_memory memoryType =>
        match asMemory object with
        | Some memory =>
            isSubset (MemoryType_size memoryType)
                     (MemoryType_size (MemoryInstance_type memory))
        | None => false
        end
    end.

(** ** Call stacks and exceptions *)

Record StackFrame : Type := mkStackFrame {
  StackFrame_ip : uintp
}.

(** [Platform::CallStack]: the frames, innermost first. *)
Record CallStack : Type := mkCallStack {
  CallStack_stackFrames : list StackFrame
}.

(** [Exception::Cause], with the members this translation unit names. *)
Inductive Cause : Type :=
| invokeSignatureMismatch
| undefinedTableElement
| accessViolation
| stackOverflow
| integerDivideByZeroOrIntegerOverflow.

(** [Exception]: a cause and a call-stack description.  [Exception {cause}]
    leaves the description empty. *)
Record Exception : Type := mkException {
  Exception_cause : Cause;
  Exception_callStack : list string
}.

(** [Platform::HardwareTrapType]; the two trap members are spelled with the
    prefix [trap_] because [Cause] has members of the same names. *)
Inductive HardwareTrapType : Type :=
| trap_none
| trap_accessViolation
| trap_stackOverflow
| trap_intDivideByZeroOrOverflow.

#[global] Instance HardwareTrapType_eq_dec : EqDecision HardwareTrapType.
Proof. solve_decision. Defined.

(** ** Effects *)

(** The two ways the process dies: [Core::errorf] and [Core::unreachable]. *)
Inductive FatalError : Type :=
| errorf (message : string)
| unreachable.

(** What a call does besides computing: capture the call stack, fetch an
    invoke thunk, run native code on a slot buffer, read a slot of the buffer
    back, write a line to the error log. *)
Inductive Event : Type :=
| CapturedCallStack
| GotInvokeThunk (functionType : FunctionType)
| CalledNative (nativeFunction : uintp) (thunkMemory : list uint64)
| ReadSlot (index : nat)
| LoggedError (message : string).

(** How a call ends: it returns, it throws an [Exception], or the process is
    terminated. *)
Inductive Outcome (A : Type) : Type :=
| Returned (a : A)
| Thrown (e : Exception)
| Fatal (f : FatalError).
#[global] Arguments Returned {A} a.
#[global] Arguments Thrown {A} e.
#[global] Arguments Fatal {A} f.

(** A computation: the events it performed, in order, and its outcome. *)
Definition M (A : Type) : Type := list Event * Outcome A.

#[global] Instance M_ret : MRet M := λ A a, ([], Returned a).

#[global] Instance M_bind : MBind M := λ A B f m,
  match m.2 with
  | Returned a => (m.1 ++ (f a).1, (f a).2)
  | Thrown e => (m.1, Thrown e)
  | Fatal e => (m.1, Fatal e)
  end.

Definition throw {A : Type} (e : Exception) : M A := ([], Thrown e).
Definition fatal {A : Type} (f : FatalError) : M A := ([], Fatal f).
Definition emit (ev : Event) : M unit := ([ev], Returned tt).

(** Runs [body] once for each element, in order (a range-based [for]). *)
Fixpoint forEach {A : Type} (body : A → M unit) (l : list A) : M unit :=
  match l with
  | [] => mret tt
  | x :: l' => body x ≫= λ _, forEach body l'
  end.

(** [m] after the events [events]. *)
Definition afterEvents {A : Type} (events : list Event) (m : M A) : M A :=
  (events ++ m.1, m.2).

(** Readings of a trace: the native calls with the buffer each was given,
    the slots read back, the lines logged. *)
Definition nativeCalls (trace : list Event) : list (uintp * list uint64) :=
  omap (λ ev, match ev with
              | CalledNative nativeFunction thunkMemory =>
                  Some (nativeFunction, thunkMemory)
              | _ => None
              end) trace.

Definition slotReads (trace : list Event) : list nat :=
  omap (λ ev, match ev with ReadSlot index => Some index | _ => None end)
       trace.

Definition loggedErrors (trace : list Event) : list string :=
  omap (λ ev, match ev with LoggedError message => Some message | _ => None end)
       trace.

(** ** Collaborators *)

(** A run of native code under [Platform::catchHardwareTraps]: it completes,
    having stored into some slots of the buffer it was given, or it traps,
    and the platform reports the trap type, the operand and the call stack at
    the trap. *)
Inductive NativeRun : Type :=
| Completes (writes : list (nat * uint64))
| Traps (trapType : HardwareTrapType) (trapOperand : uintp)
        (trapCallStack : CallStack).

(** [LLVMJIT::InvokeFunctionPointer]: called with the native function and the
    slot buffer. *)
Definition InvokeFunctionPointer : Type := uintp → list uint64 → NativeRun.

Class LLVMJIT : Type := mkLLVMJIT {
  LLVMJIT_describeInstructionPointer : uintp → option string;
  LLVMJIT_getInvokeThunk : FunctionType → InvokeFunctionPointer
}.

Class Platform : Type := mkPlatform {
  Platform_describeInstructionPointer : uintp → option string;
  Platform_captureCallStack : CallStack
}.

(** The process around a call: which addresses the tables and the memories
    of the runtime have reserved ([isAddressOwnedByTable] and
    [isAddressOwnedByMemory] are declared outside this translation unit), and
    what [alloca] finds in the slots it hands out. *)
Class Process : Type := mkProcess {
  isAddressOwnedByTable : uintp → bool;
  isAddressOwnedByMemory : uintp → bool;
  stackGarbage : nat → uint64
}.

Context `{jit : !LLVMJIT} `{platform : !Platform}
        `{process : !Process}.

Definition captureCallStack : M CallStack :=
  emit CapturedCallStack ≫= λ _, mret Platform_captureCallStack.

Definition getInvokeThunk (functionType : FunctionType)
  : M InvokeFunctionPointer :=
  emit (GotInvokeThunk functionType) ≫= λ _,
  mret (LLVMJIT_getInvokeThunk functionType).

Definition alloca (slots : nat) : list uint64 :=
  stackGarbage <$> seq 0 slots.

(** The stores of a completed run, applied in order.  A store outside the
    buffer, undefined in C++, changes nothing here. *)
Definition applyWrites (thunkMemory : list uint64)
    (writes : list (nat * uint64)) : list uint64 :=
  foldl (λ memory w, <[w.1 := w.2]> memory) thunkMemory writes.

(** ** [describeCallStack] *)

Definition unknownFunction : string := "<unknown function>".

(** The body of the loop: the JIT is asked first, the platform only when the
    JIT does not know the address. *)
Definition describeFrame (frame : StackFrame) : string :=
  match LLVMJIT_describeInstructionPointer (StackFrame_ip frame) with
  | Some frameDescription => frameDescription
  | None =>
      match Platform_describeInstructionPointer (StackFrame_ip frame) with
      | Some frameDescription => frameDescription
      | None => unknownFunction
      end
  end.

(** The loop, [frameDescriptions] being the vector pushed to. *)
Fixpoint describeFrames (stackFrames : list StackFrame)
    (frameDescriptions : list string) : list string :=
  match stackFrames with
  | [] => frameDescriptions
  | frame :: rest =>
      describeFrames rest (frameDescriptions ++ [describeFrame frame])
  end.

Definition describeCallStack (callStack : CallStack) : list string :=
  describeFrames (CallStack_stackFrames callStack) [].

(** ** [causeException] *)

Definition causeException {A : Type} (cause : Cause) : M A :=
  callStack ← captureCallStack;
  throw (mkException cause (describeCallStack callStack)).

(** ** [invokeFunction] *)

Definition signatureMismatch : Exception :=
  mkException invokeSignatureMismatch [].

(** The loop that checks each parameter against its declared type and stores
    its payload in the slot of its index.  The size test of [invokeFunction]
    runs before it, so both vectors have the same number of elements and the
    loop ends with both. *)
Fixpoint marshalParameters (declared : list ValueType)
    (parameters : list Value) (parameterIndex : nat)
    (thunkMemory : list uint64) : M (list uint64) :=
  match declared, parameters with
  | declaredType :: declared', parameter :: parameters' =>
      if bool_decide (declaredType ≠ Value_type parameter)
      then throw signatureMismatch
      else marshalParameters declared' parameters' (S parameterIndex)
             (<[parameterIndex := Value_i64 parameter]> thunkMemory)
  | _, _ => mret thunkMemory
  end.

(** What [invokeFunction] holds after [Platform::catchHardwareTraps]. *)
Record TrapReport : Type := mkTrapReport {
  TrapReport_trapType : HardwareTrapType;
  TrapReport_trapCallStack : CallStack;
  TrapReport_trapOperand : uintp;
  TrapReport_callerStack : CallStack;
  TrapReport_result : Result
}.

(** The closure run under [Platform::catchHardwareTraps]: capture the
    caller's stack, call the thunk, and read the result slot when the
    function has a result.  A trap in the thunk ends the closure there.  The
    result slot is inside the buffer [invokeFunction] allocates, as proved
    below; [default] only makes the read total. *)
Definition catchHardwareTraps (function : FunctionInstance)
    (invokeFunctionPointer : InvokeFunctionPointer)
    (thunkMemory : list uint64) : M TrapReport :=
  let functionType := FunctionInstance_type function in
  callerStack ← captureCallStack;
  _ ← emit (CalledNative (FunctionInstance_nativeFunction function)
                         thunkMemory);
  match invokeFunctionPointer (FunctionInstance_nativeFunction function)
                              thunkMemory with
  | Completes writes =>
      let thunkMemory' := applyWrites thunkMemory writes in
      result ←
        (if bool_decide (FunctionType_ret functionType ≠ ResultType_none)
         then
           let slot := length (FunctionType_parameters functionType) in
           _ ← emit (ReadSlot slot);
           mret (mkResult (FunctionType_ret functionType)
                          (default 0%Z (thunkMemory' !! slot)))
         else mret emptyResult);
      mret (mkTrapReport trap_none (mkCallStack []) 0%Z callerStack result)
  | Traps trapType trapOperand trapCallStack =>
      mret (mkTrapReport trapType trapCallStack trapOperand callerStack
                         emptyResult)
  end.

(** Lines 112-115: drop the caller's frames, and one more, from the end of
    the trap-time stack, when it has that many. *)
Definition truncateTrapCallStack (trapCallStack callerStack : CallStack)
  : CallStack :=
  let trapSize := length (CallStack_stackFrames trapCallStack) in
  let callerSize := length (CallStack_stackFrames callerStack) in
  if bool_decide (callerSize + 1 ≤ trapSize)
  then mkCallStack (resize (trapSize - callerSize - 1) (mkStackFrame 0%Z)
                           (CallStack_stackFrames trapCallStack))
  else trapCallStack.

Definition newline : string := String "010"%char EmptyString.

Definition accessViolationLogHeader : string :=
  "Access violation outside of table or memory reserved addresses. Call stack:"
  +:+ newline.

(** Lines 119-139: the [switch] on the trap type.  Modelled from the spec:
    [Core::errorf], declared outside this translation unit, terminates the
    process. *)
Definition raiseHardwareTrap {A : Type} (trapType : HardwareTrapType)
    (trapOperand : uintp) (callStackDescription : list string) : M A :=
  match trapType with
  | trap_accessViolation =>
      if isAddressOwnedByTable trapOperand
      then throw (mkException undefinedTableElement callStackDescription)
      else if isAddressOwnedByMemory trapOperand
      then throw (mkException accessViolation callStackDescription)
      else
        _ ← emit (LoggedError accessViolationLogHeader);
        _ ← forEach (λ calledFunction,
               emit (LoggedError ("  " +:+ calledFunction +:+ newline)))
             callStackDescription;
        fatal (errorf EmptyString)
  | trap_stackOverflow =>
      throw (mkException stackOverflow callStackDescription)
  | trap_intDivideByZeroOrOverflow =>
      throw (mkException integerDivideByZeroOrIntegerOverflow
                         callStackDescription)
  | trap_none => fatal unreachable
  end.

(** Lines 71-80: the [alloca] and the loop. *)
Definition marshal (functionType : FunctionType) (parameters : list Value)
  : M (list uint64) :=
  marshalParameters (FunctionType_parameters functionType) parameters 0
    (alloca (length (FunctionType_parameters functionType)
             + getArity (FunctionType_ret functionType))).

Definition invokeFunction (function : FunctionInstance)
    (parameters : list Value) : M Result :=
  let functionType := FunctionInstance_type function in
  if bool_decide (length parameters
                  ≠ length (FunctionType_parameters functionType))
  then throw signatureMismatch
  else
    thunkMemory ← marshal functionType parameters;
    invokeFunctionPointer ← getInvokeThunk functionType;
    report ← catchHardwareTraps function invokeFunctionPointer thunkMemory;
    if bool_decide (TrapReport_trapType report = trap_none)
    then mret (TrapReport_result report)
    else
      let trapCallStack :=
        truncateTrapCallStack (TrapReport_trapCallStack report)
                              (TrapReport_callerStack report) in
      let callStackDescription := describeCallStack trapCallStack in
      raiseHardwareTrap (TrapReport_trapType report)
                        (TrapReport_trapOperand report)
                        callStackDescription.

Definition getFunctionType (function : FunctionInstance) : FunctionType :=
  FunctionInstance_type function.

(** ** Globals *)

(** A [GlobalInstance*] is an address in the heap of global instances;
    [new] takes an address not in use.  [None] stands for undefined
    behaviour: a pointer to no instance, or a failed [assert]. *)
Definition createGlobal (heap : gmap positive GlobalInstance)
    (type : GlobalType) (initialValue : Value)
  : positive * gmap positive GlobalInstance :=
  let global := fresh (dom heap) in
  (global, <[global := mkGlobalInstance type (Value_i64 initialValue)]> heap).

Definition getGlobalValue (heap : gmap positive GlobalInstance)
    (global : positive) : option Value :=
  instance ← heap !! global;
  Some (mkValue (GlobalType_valueType (GlobalInstance_type instance))
                (GlobalInstance_value instance)).

Definition setGlobalValue (heap : gmap positive GlobalInstance)
    (global : positive) (newValue : Value)
  : option (Value * gmap positive GlobalInstance) :=
  instance ← heap !! global;
  let type := GlobalInstance_type instance in
  if bool_decide (Value_type newValue = GlobalType_valueType type)
  then
    if GlobalType_isMutable type
    then
      let previousValue :=
        mkValue (GlobalType_valueType type) (GlobalInstance_value instance) in
      Some (previousValue,
            <[global := mkGlobalInstance type (Value_i64 newValue)]> heap)
    else None
  else None.

End Runtime.

(** * A concrete runtime

    The development instantiated: the four value types of WebAssembly, one
    table element type, and collaborators fixed to small tables, so that the
    functions above can be run on explicit inputs. *)
Module Scenario.

Inductive WasmValueType : Type := i32 | i64 | f32 | f64.

#[global] Instance WasmValueType_eq_dec : EqDecision WasmValueType.
Proof. solve_decision. Defined.

Inductive WasmTableElementType : Type := anyfunc.

#[global] Instance WasmTableElementType_eq_dec
  : EqDecision WasmTableElementType.
Proof. solve_decision. Defined.

Definition frames (ips : list uintp) : CallStack :=
  mkCallStack (mkStackFrame <$> ips).

(** The native functions, by address.  1 stores 42 in the result slot, when
    the signature has a result; 2 overflows the stack two frames into the
    call; 3 touches the address held in slot 0; 4 divides by zero and the
    platform reports a trap-time stack of two frames only. *)
Definition thunk (functionType : FunctionType (ValueType := WasmValueType))
  : InvokeFunctionPointer :=
  λ nativeFunction thunkMemory,
    if bool_decide (nativeFunction = 1%Z)
    then
      Completes
        (if bool_decide (FunctionType_ret functionType = ResultType_none)
         then []
         else [(length (FunctionType_parameters functionType), 42%Z)])
    else if bool_decide (nativeFunction = 2%Z)
    then Traps trap_stackOverflow 0%Z (frames [10; 20; 30; 40; 50]%Z)
    else if bool_decide (nativeFunction = 3%Z)
    then Traps trap_accessViolation (default 0%Z (thunkMemory !! 0))
               (frames [10; 30; 40; 50]%Z)
    else Traps trap_intDivideByZeroOrOverflow 0%Z (frames [10; 20]%Z).

(** The JIT knows address 10. *)
Definition jit : LLVMJIT := {|
  LLVMJIT_describeInstructionPointer ip :=
    if bool_decide (ip = 10%Z) then Some "wasm!f+4"%string else None;
  LLVMJIT_getInvokeThunk := thunk
|}.

(** The platform knows address 30; the stack of the host has two frames. *)
Definition platform : Platform := {|
  Platform_describeInstructionPointer ip :=
    if bool_decide (ip = 30%Z) then Some "invokeThunk"%string else None;
  Platform_captureCallStack := frames [40; 50]%Z
|}.

(** A table reserves the addresses from 1000 to 1999, a memory those from
    2000 to 2999. *)
Definition process : Process := {|
  isAddressOwnedByTable address :=
    bool_decide (1000 ≤ address < 2000)%Z;
  isAddressOwnedByMemory address :=
    bool_decide (2000 ≤ address < 3000)%Z;
  stackGarbage _ := 57005%Z
|}.

Definition binary (nativeFunction : uintp) : FunctionInstance :=
  mkFunctionInstance (mkFunctionType [i32; i64] (ResultType_value i32))
                     nativeFunction.

Definition procedure (nativeFunction : uintp) : FunctionInstance :=
  mkFunctionInstance (mkFunctionType [i64] ResultType_none) nativeFunction.

Definition invoke (function : FunctionInstance) (parameters : list Value)
  : M Result :=
  invokeFunction (jit := jit) (platform := platform)
                 (process := process) function parameters.

Definition cause (c : Cause) : M (Result (ValueType := WasmValueType)) :=
  causeException (jit := jit) (platform := platform) c.

Definition describe (callStack : CallStack) : list string :=
  describeCallStack (jit := jit) (platform := platform) callStack.

Definition anyfuncTable (min max : uint64) : TableType :=
  mkTableType anyfunc (mkSizeConstraints min max).

(** The function [binary] as an object handle, and the expected type
    "a memory of [min] to [max] pages". *)
Definition functionObject (nativeFunction : uintp)
  : Object (TableElementType := WasmTableElementType) :=
  Object_function (binary nativeFunction).

Definition objectIsMemory (min max : uint64)
  : ObjectType (ValueType := WasmValueType)
               (TableElementType := WasmTableElementType) :=
  ObjectType_memory (mkMemoryType (mkSizeConstraints min max)).

Definition tableObject (min max : uint64)
  : Object (ValueType := WasmValueType) :=
  Object_table (mkTableInstance (anyfuncTable min max)).

Definition memoryObject (min max : uint64)
  : Object (ValueType := WasmValueType)
           (TableElementType := WasmTableElementType) :=
  Object_memory (mkMemoryInstance (mkMemoryType (mkSizeConstraints min max))).

Definition objectIsTable (min max : uint64)
  : ObjectType (ValueType := WasmValueType) :=
  ObjectType_table (anyfuncTable min max).

(** Two arguments of the types [binary] declares. *)
Definition arguments (first second : uint64) : list Value :=
  [mkValue i32 first; mkValue i64 second].

(** A heap with one mutable global of type [i32] that holds 5. *)
Definition globals : gmap positive GlobalInstance :=
  {[ 1%positive := mkGlobalInstance (mkGlobalType i32 true) 5%Z ]}.

(** A JIT whose thunks complete without storing anything. *)
Definition idleJit : LLVMJIT (ValueType := WasmValueType) := {|
  LLVMJIT_describeInstructionPointer _ := None;
  LLVMJIT_getInvokeThunk _ := λ _ _, Completes []
|}.

Definition invokeIdle (function : FunctionInstance)
    (parameters : list Value) : M Result :=
  invokeFunction (jit := idleJit) (platform := platform)
                 (process := process) function parameters.

End Scenario.

(** * Properties *)

Section Properties.

Context {ValueType : Type} `{ValueType_eq_dec : !EqDecision ValueType}.
Context {TableElementType : Type}
        `{TableElementType_eq_dec : !EqDecision TableElementType}.
Context `{jit : !LLVMJIT (ValueType := ValueType)} `{platform : !Platform}
        `{process : !Process}.

Implicit Types (function : FunctionInstance (ValueType := ValueType)).
Implicit Types (parameters : list (Value (ValueType := ValueType))).
Implicit Types (callStack trapCallStack : CallStack).
Implicit Types (thunkMemory : list uint64).

(** ** The call-stack describer *)

Lemma describeFrames_spec (stackFrames : list StackFrame)
    (frameDescriptions : list string) :
  describeFrames stackFrames frameDescriptions
  = frameDescriptions ++ (describeFrame <$> stackFrames).
Proof.
  revert frameDescriptions.
  induction stackFrames as [|frame rest IH]; intros acc; simpl.
  - by rewrite app_nil_r.
  - by rewrite IH, <- app_assoc.
Qed.

Lemma describeCallStack_fmap callStack :
  describeCallStack callStack
  = describeFrame <$> CallStack_stackFrames callStack.
Proof. unfold describeCallStack. by rewrite describeFrames_spec. Qed.

Lemma describeCallStack_length callStack :
  length (describeCallStack callStack)
  = length (CallStack_stackFrames callStack).
Proof. by rewrite describeCallStack_fmap, length_fmap. Qed.

(** C9, as amended: [describeCallStack] returns one description per frame,
    in the order of the frames; the description of a frame is the JIT's when
    the JIT knows the address, else the platform's when the platform does,
    else the fixed string "<unknown function>". *)
Theorem describeCallStack_per_frame callStack :
  length (describeCallStack callStack)
  = length (CallStack_stackFrames callStack)
  ∧ ∀ (i : nat) (frame : StackFrame),
      CallStack_stackFrames callStack !! i = Some frame →
      describeCallStack callStack !! i
      = Some match LLVMJIT_describeInstructionPointer (StackFrame_ip frame)
             with
             | Some description => description
             | None =>
                 match Platform_describeInstructionPointer
                         (StackFrame_ip frame) with
                 | Some description => description
                 | None => "<unknown function>"%string
                 end
             end.
Proof.
  split; [apply describeCallStack_length|].
  intros i frame Hframe.
  rewrite describeCallStack_fmap, list_lookup_fmap, Hframe.
  reflexivity.
Qed.

(** ** The type-conformance check *)

Implicit Types (object : Object (ValueType := ValueType)
                                (TableElementType := TableElementType)).
Implicit Types (type : ObjectType (ValueType := ValueType)
                                  (TableElementType := TableElementType)).

Lemma isSubset_spec (super sub : SizeConstraints) :
  isSubset super sub = true
  ↔ (SizeConstraints_min super ≤ SizeConstraints_min sub)%Z
    ∧ (SizeConstraints_max sub ≤ SizeConstraints_max super)%Z.
Proof.
  unfold isSubset.
  rewrite andb_true_iff, !Z.leb_le. reflexivity.
Qed.

Lemma isSubset_false (super sub : SizeConstraints) :
  isSubset super sub = false
  ↔ (SizeConstraints_min sub < SizeConstraints_min super)%Z
    ∨ (SizeConstraints_max super < SizeConstraints_max sub)%Z.
Proof.
  unfold isSubset.
  rewrite andb_false_iff, !Z.leb_gt. reflexivity.
Qed.

(** Once the kinds are equal, the cast of the [switch] arm succeeds. *)
Lemma isA_cast_succeeds object type :
  ObjectType_kind type = Object_kind object →
  match type with
  | ObjectType_function _ => is_Some (asFunction object)
  | ObjectType_global _ => is_Some (asGlobal object)
  | ObjectType_table _ => is_Some (asTable object)
  | ObjectType_memory _ => is_Some (asMemory object)
  end.
Proof. destruct type, object; simpl; intros; by eauto. Qed.

(** The first two arms of the [switch]: a function conforms to its own
    signature only, a global to its own type only. *)
Lemma isA_function_global :
  (∀ (f : FunctionInstance (ValueType := ValueType))
     (expected : FunctionType),
     isA (TableElementType := TableElementType)
         (Object_function f) (ObjectType_function expected) = true
     ↔ expected = FunctionInstance_type f)
  ∧ (∀ (g : GlobalInstance (ValueType := ValueType))
       (expected : GlobalType),
       isA (TableElementType := TableElementType)
           (Object_global g) (ObjectType_global expected) = true
       ↔ expected = GlobalInstance_type g).
Proof.
  split; intros instance expected; unfold isA; simpl;
    apply bool_decide_eq_true.
Qed.

(** C3: for a table object and an expected table type, [isA] is true exactly
    when the element types are equal and the size bound of the object lies
    within the expected bound; for a memory object and an expected memory
    type, exactly when the size bound of the object lies within the expected
    bound; and [isA] is false exactly when one of these fails, so whenever
    the bound of the object passes the expected bound at either end. *)
Theorem isA_table_memory_containment :
  (∀ (table : TableInstance (TableElementType := TableElementType))
     (expected : TableType),
     let objectSize := TableType_size (TableInstance_type table) in
     let expectedSize := TableType_size expected in
     (isA (ValueType := ValueType)
          (Object_table table) (ObjectType_table expected) = true
      ↔ TableType_elementType (TableInstance_type table)
        = TableType_elementType expected
        ∧ (SizeConstraints_min expectedSize ≤ SizeConstraints_min objectSize)%Z
        ∧ (SizeConstraints_max objectSize ≤ SizeConstraints_max expectedSize)%Z)
     ∧ (isA (ValueType := ValueType)
            (Object_table table) (ObjectType_table expected) = false
        ↔ TableType_elementType (TableInstance_type table)
          ≠ TableType_elementType expected
          ∨ (SizeConstraints_min objectSize < SizeConstraints_min expectedSize)%Z
          ∨ (SizeConstraints_max expectedSize < SizeConstraints_max objectSize)%Z))
  ∧ (∀ (memory : MemoryInstance) (expected : MemoryType),
       let objectSize := MemoryType_size (MemoryInstance_type memory) in
       let expectedSize := MemoryType_size expected in
       (isA (ValueType := ValueType) (TableElementType := TableElementType)
            (Object_memory memory) (ObjectType_memory expected) = true
        ↔ (SizeConstraints_min expectedSize ≤ SizeConstraints_min objectSize)%Z
          ∧ (SizeConstraints_max objectSize ≤ SizeConstraints_max expectedSize)%Z)
       ∧ (isA (ValueType := ValueType) (TableElementType := TableElementType)
              (Object_memory memory) (ObjectType_memory expected) = false
          ↔ (SizeConstraints_min objectSize < SizeConstraints_min expectedSize)%Z
            ∨ (SizeConstraints_max expectedSize < SizeConstraints_max objectSize)%Z)).
Proof.
  split.
  - intros table expected objectSize expectedSize.
    unfold isA; simpl.
    split.
    + rewrite andb_true_iff, bool_decide_eq_true, isSubset_spec.
      subst objectSize expectedSize. intuition congruence.
    + rewrite andb_false_iff, bool_decide_eq_false, isSubset_false.
      subst objectSize expectedSize. intuition congruence.
  - intros memory expected objectSize expectedSize.
    unfold isA; simpl.
    split; [apply isSubset_spec | apply isSubset_false].
Qed.

(** C4: when the kind of the object is not the kind of the expected type,
    [isA] is false, whatever the two kinds are. *)
Theorem isA_kind_mismatch object type :
  ObjectType_kind type ≠ Object_kind object →
  isA object type = false.
Proof.
  intros Hkind. unfold isA.
  by rewrite bool_decide_true.
Qed.

(** ** The global cell *)

Implicit Types (heap : gmap positive (GlobalInstance (ValueType := ValueType))).

Lemma Value_eta (v : Value (ValueType := ValueType)) :
  mkValue (Value_type v) (Value_i64 v) = v.
Proof. by destruct v. Qed.

Lemma createGlobal_fresh heap (globalType : GlobalType) (v : Value) :
  heap !! (createGlobal heap globalType v).1 = None.
Proof.
  simpl. apply not_elem_of_dom, is_fresh.
Qed.

Lemma createGlobal_lookup heap (globalType : GlobalType) (v : Value) :
  (createGlobal heap globalType v).2 !! (createGlobal heap globalType v).1
  = Some (mkGlobalInstance globalType (Value_i64 v)).
Proof. simpl. apply lookup_insert_eq. Qed.

(** The globals that existed before [createGlobal] are untouched by it. *)
Lemma createGlobal_frame heap (globalType : GlobalType) (v : Value)
    (other : positive) :
  is_Some (heap !! other) →
  (createGlobal heap globalType v).2 !! other = heap !! other.
Proof.
  intros [instance Hother]. simpl.
  apply lookup_insert_ne. intros <-.
  pose proof (createGlobal_fresh heap globalType v) as Hfresh.
  simpl in Hfresh. congruence.
Qed.

(** [setGlobalValue] changes no other global. *)
Lemma setGlobalValue_frame heap (global other : positive) (newValue : Value)
    (previous : Value) heap' :
  setGlobalValue heap global newValue = Some (previous, heap') →
  other ≠ global →
  getGlobalValue heap' other = getGlobalValue heap other.
Proof.
  unfold setGlobalValue, getGlobalValue. intros Hset Hne.
  destruct (heap !! global) as [instance|]; simpl in *; [|done].
  repeat case_match; simplify_eq.
  by rewrite lookup_insert_ne.
Qed.

(** C8: reading a global made by [createGlobal] from a type and a value of
    that type gives back that value; and on a mutable global, setting a value
    of the declared type returns the value the global held before the call,
    after which reading the global gives the value that was set. *)
Theorem global_create_get_set heap :
  (∀ (globalType : GlobalType) (v : Value),
     Value_type v = GlobalType_valueType globalType →
     getGlobalValue (createGlobal heap globalType v).2
                    (createGlobal heap globalType v).1
     = Some v)
  ∧ (∀ (global : positive) (instance : GlobalInstance) (v2 : Value),
       heap !! global = Some instance →
       GlobalType_isMutable (GlobalInstance_type instance) = true →
       Value_type v2 = GlobalType_valueType (GlobalInstance_type instance) →
       ∃ previous heap',
         setGlobalValue heap global v2 = Some (previous, heap')
         ∧ getGlobalValue heap global = Some previous
         ∧ getGlobalValue heap' global = Some v2).
Proof.
  split.
  - intros globalType v Htype.
    unfold getGlobalValue.
    rewrite createGlobal_lookup. simpl.
    by rewrite <- Htype, Value_eta.
  - intros global instance v2 Hlookup Hmutable Htype.
    unfold setGlobalValue, getGlobalValue.
    rewrite Hlookup. simpl.
    rewrite bool_decide_true by done.
    rewrite Hmutable.
    eexists _, _. split; [reflexivity|]. split; [reflexivity|].
    rewrite lookup_insert_eq. simpl.
    by rewrite <- Htype, Value_eta.
Qed.

(** ** The invocation bridge: marshalling *)

Lemma marshalParameters_mismatch (declared : list ValueType) parameters
    (parameterIndex : nat) thunkMemory :
  (∃ (i : nat) (declaredType : ValueType) (v : Value),
     declared !! i = Some declaredType
     ∧ parameters !! i = Some v
     ∧ declaredType ≠ Value_type v) →
  marshalParameters declared parameters parameterIndex thunkMemory
  = throw signatureMismatch.
Proof.
  revert parameters parameterIndex thunkMemory.
  induction declared as [|declaredType declared IH];
    intros parameters parameterIndex thunkMemory (i & ty & v & Hd & Hp & Hne).
  - by rewrite lookup_nil in Hd.
  - destruct parameters as [|parameter parameters];
      [by rewrite lookup_nil in Hp|].
    simpl. case_bool_decide as Hhead; [done|].
    destruct i as [|i]; simpl in Hd, Hp.
    + by simplify_eq.
    + apply IH. eauto 6.
Qed.

Lemma marshalParameters_match (declared : list ValueType) parameters
    (parameterIndex : nat) thunkMemory :
  Forall2 (λ declaredType v, declaredType = Value_type v)
          declared parameters →
  parameterIndex + length parameters ≤ length thunkMemory →
  marshalParameters declared parameters parameterIndex thunkMemory
  = mret (take parameterIndex thunkMemory
          ++ (Value_i64 <$> parameters)
          ++ drop (parameterIndex + length parameters) thunkMemory).
Proof.
  intros Hmatch. revert parameterIndex thunkMemory.
  induction Hmatch as [|declaredType v declared parameters Hhead _ IH];
    intros parameterIndex thunkMemory Hroom; simpl in *.
  - by rewrite Nat.add_0_r, take_drop.
  - rewrite bool_decide_false by (intros Hne; by apply Hne).
    rewrite IH by (rewrite length_insert; lia).
    f_equal.
    rewrite (take_S_r _ _ (Value_i64 v))
      by (apply list_lookup_insert_eq; lia).
    rewrite take_insert_ge by lia.
    rewrite drop_insert_lt by lia.
    rewrite <- app_assoc. simpl.
    by rewrite Nat.add_succ_r.
Qed.

(** The buffer handed to the thunk when every parameter has its declared
    type: the payloads in parameter order, then what [alloca] left in the
    slot of the result, when there is one. *)
Lemma marshal_match (functionType : FunctionType) parameters :
  Forall2 (λ declaredType v, declaredType = Value_type v)
          (FunctionType_parameters functionType) parameters →
  marshal functionType parameters
  = mret ((Value_i64 <$> parameters)
          ++ (stackGarbage
              <$> seq (length (FunctionType_parameters functionType))
                      (getArity (FunctionType_ret functionType)))).
Proof.
  intros Hmatch. unfold marshal, alloca.
  pose proof (Forall2_length _ _ _ Hmatch) as Hlen.
  rewrite marshalParameters_match;
    [|done|rewrite length_fmap, length_seq; lia].
  rewrite take_0. simpl.
  rewrite <- fmap_drop, drop_seq. simpl.
  do 4 f_equal; lia.
Qed.

(** ** The invocation bridge: the three ways a call goes on *)

Lemma invokeFunction_mismatch function parameters :
  length parameters
  ≠ length (FunctionType_parameters (FunctionInstance_type function))
  ∨ (∃ (i : nat) (declaredType : ValueType) (v : Value),
       FunctionType_parameters (FunctionInstance_type function) !! i
       = Some declaredType
       ∧ parameters !! i = Some v
       ∧ declaredType ≠ Value_type v) →
  invokeFunction function parameters = throw signatureMismatch.
Proof.
  intros Hmismatch. unfold invokeFunction.
  case_bool_decide as Hlen; [done|].
  destruct Hmismatch as [Hne|Hty]; [done|].
  unfold marshal. by rewrite marshalParameters_mismatch.
Qed.

Lemma invokeFunction_traps function parameters thunkMemory
    (trapType : HardwareTrapType) (trapOperand : uintp) trapCallStack :
  let functionType := FunctionInstance_type function in
  let nativeFunction := FunctionInstance_nativeFunction function in
  length parameters = length (FunctionType_parameters functionType) →
  marshal functionType parameters = mret thunkMemory →
  LLVMJIT_getInvokeThunk functionType nativeFunction thunkMemory
  = Traps trapType trapOperand trapCallStack →
  invokeFunction function parameters
  = afterEvents
      [GotInvokeThunk functionType; CapturedCallStack;
       CalledNative nativeFunction thunkMemory]
      (if bool_decide (trapType = trap_none) then mret emptyResult
       else
         raiseHardwareTrap trapType trapOperand
           (describeCallStack
              (truncateTrapCallStack trapCallStack
                                     Platform_captureCallStack))).
Proof.
  intros functionType nativeFunction Hlen Hmarshal Hrun.
  unfold invokeFunction.
  rewrite bool_decide_false by (intros Hne; by apply Hne).
  fold functionType. rewrite Hmarshal.
  unfold catchHardwareTraps, getInvokeThunk, captureCallStack, emit,
    afterEvents, mbind, M_bind, mret, M_ret.
  simpl. fold functionType nativeFunction. rewrite Hrun. simpl.
  case_bool_decide; [done|].
  by destruct (raiseHardwareTrap _ _ _).
Qed.

Lemma invokeFunction_completes function parameters thunkMemory
    (writes : list (nat * uint64)) :
  let functionType := FunctionInstance_type function in
  let nativeFunction := FunctionInstance_nativeFunction function in
  let slot := length (FunctionType_parameters functionType) in
  length parameters = length (FunctionType_parameters functionType) →
  marshal functionType parameters = mret thunkMemory →
  LLVMJIT_getInvokeThunk functionType nativeFunction thunkMemory
  = Completes writes →
  invokeFunction function parameters
  = afterEvents
      [GotInvokeThunk functionType; CapturedCallStack;
       CalledNative nativeFunction thunkMemory]
      (match FunctionType_ret functionType with
       | ResultType_none => mret emptyResult
       | ResultType_value _ =>
           ([ReadSlot slot],
            Returned
              (mkResult (FunctionType_ret functionType)
                 (default 0%Z (applyWrites thunkMemory writes !! slot))))
       end).
Proof.
  intros functionType nativeFunction slot Hlen Hmarshal Hrun.
  unfold invokeFunction.
  rewrite bool_decide_false by (intros Hne; by apply Hne).
  fold functionType. rewrite Hmarshal.
  unfold catchHardwareTraps, getInvokeThunk, captureCallStack, emit,
    afterEvents, mbind, M_bind, mret, M_ret.
  simpl. fold functionType nativeFunction. rewrite Hrun.
  destruct (FunctionType_ret functionType) as [|t]; simpl; reflexivity.
Qed.

(** ** The invocation bridge: signature mismatches *)

(** C1: when the number of arguments is not the number of declared
    parameters, or some argument has not the type declared at its position,
    [invokeFunction] throws an [Exception] of cause
    [invokeSignatureMismatch], and no native call is made. *)
Theorem invokeFunction_signature_mismatch function parameters :
  length parameters
  ≠ length (FunctionType_parameters (FunctionInstance_type function))
  ∨ (∃ (i : nat) (declaredType : ValueType) (v : Value),
       FunctionType_parameters (FunctionInstance_type function) !! i
       = Some declaredType
       ∧ parameters !! i = Some v
       ∧ declaredType ≠ Value_type v) →
  ∃ e : Exception,
    (invokeFunction function parameters).2 = Thrown e
    ∧ Exception_cause e = invokeSignatureMismatch
    ∧ nativeCalls (invokeFunction function parameters).1 = [].
Proof.
  intros Hmismatch.
  rewrite invokeFunction_mismatch by done.
  by exists signatureMismatch.
Qed.

(** C7, as amended: [causeException] captures the current call stack,
    describes it, throws an [Exception] that carries the cause and that
    description, and does not return; the signature mismatches of
    [invokeFunction] are not reported through it: they are thrown directly,
    with an empty call-stack description and without a capture of the call
    stack. *)
Theorem causeException_throws_and_mismatch_is_direct (cause : Cause)
    function parameters :
  (∀ A : Type,
     causeException (A := A) cause
     = ([CapturedCallStack],
        Thrown (mkException cause
                  (describeCallStack Platform_captureCallStack))))
  ∧ (length parameters
     ≠ length (FunctionType_parameters (FunctionInstance_type function))
     ∨ (∃ (i : nat) (declaredType : ValueType) (v : Value),
          FunctionType_parameters (FunctionInstance_type function) !! i
          = Some declaredType
          ∧ parameters !! i = Some v
          ∧ declaredType ≠ Value_type v) →
     invokeFunction function parameters
     = ([], Thrown (mkException invokeSignatureMismatch []))).
Proof.
  split; [done|].
  intros Hmismatch. by apply invokeFunction_mismatch.
Qed.

(** ** The invocation bridge: marshalling and normal completion *)

Lemma forEach_emit {A : Type}
    (event : A → Event (ValueType := ValueType)) (l : list A) :
  forEach (λ x, emit (event x)) l = (event <$> l, Returned tt).
Proof.
  induction l as [|x l IH]; [done|].
  simpl. unfold mbind, M_bind. simpl. by rewrite IH.
Qed.

Lemma raiseHardwareTrap_trace {A : Type} (trapType : HardwareTrapType)
    (trapOperand : uintp) (callStackDescription : list string) :
  nativeCalls (raiseHardwareTrap (ValueType := ValueType) (A := A)
                 trapType trapOperand callStackDescription).1 = []
  ∧ slotReads (raiseHardwareTrap (ValueType := ValueType) (A := A)
                 trapType trapOperand callStackDescription).1 = [].
Proof.
  unfold raiseHardwareTrap.
  destruct trapType; try done.
  destruct (isAddressOwnedByTable trapOperand); [done|].
  destruct (isAddressOwnedByMemory trapOperand); [done|].
  rewrite forEach_emit.
  unfold mbind, M_bind, nativeCalls, slotReads. simpl.
  rewrite app_nil_r.
  split; induction callStackDescription; by simpl.
Qed.

(** C5: when the arguments pass the arity and the type checks, the thunk is
    called once, on a buffer of (parameter count + result arity) slots that
    holds the payloads of the arguments in parameter order, followed by the
    slot of the result when the signature has one.  When the call completes
    without a trap: with a declared result, [invokeFunction] returns a
    [Result] of the declared type whose payload is the content of the slot at
    index (parameter count), the one slot it reads; with no declared result,
    it returns the empty [Result] and reads no slot. *)
Theorem invokeFunction_marshals_and_returns function parameters :
  let functionType := FunctionInstance_type function in
  let nativeFunction := FunctionInstance_nativeFunction function in
  let count := length (FunctionType_parameters functionType) in
  let arity := getArity (FunctionType_ret functionType) in
  let thunkMemory :=
    (Value_i64 <$> parameters) ++ (stackGarbage <$> seq count arity) in
  Forall2 (λ declaredType v, declaredType = Value_type v)
          (FunctionType_parameters functionType) parameters →
  length thunkMemory = count + arity
  ∧ nativeCalls (invokeFunction function parameters).1
    = [(nativeFunction, thunkMemory)]
  ∧ ∀ writes : list (nat * uint64),
      LLVMJIT_getInvokeThunk functionType nativeFunction thunkMemory
      = Completes writes →
      match FunctionType_ret functionType with
      | ResultType_none =>
          (invokeFunction function parameters).2 = Returned emptyResult
          ∧ slotReads (invokeFunction function parameters).1 = []
      | ResultType_value declaredResult =>
          ∃ payload : uint64,
            applyWrites thunkMemory writes !! count = Some payload
            ∧ (invokeFunction function parameters).2
              = Returned (mkResult (ResultType_value declaredResult) payload)
            ∧ slotReads (invokeFunction function parameters).1 = [count]
      end.
Proof.
  intros functionType nativeFunction count arity thunkMemory Hmatch.
  pose proof (Forall2_length _ _ _ Hmatch) as Hlen. symmetry in Hlen.
  pose proof (marshal_match functionType parameters Hmatch) as Hmarshal.
  fold count arity thunkMemory in Hmarshal.
  assert (length thunkMemory = count + arity) as Hsize.
  { unfold thunkMemory.
    rewrite length_app, !length_fmap, length_seq. by rewrite Hlen. }
  clearbody thunkMemory.
  subst functionType nativeFunction count arity.
  split; [done|]. split.
  - destruct (LLVMJIT_getInvokeThunk (FunctionInstance_type function)
                (FunctionInstance_nativeFunction function) thunkMemory)
      as [writes|trapType trapOperand trapCallStack] eqn:Hrun.
    + rewrite (invokeFunction_completes _ _ _ _ Hlen Hmarshal Hrun).
      by destruct (FunctionType_ret _).
    + rewrite (invokeFunction_traps _ _ _ _ _ _ Hlen Hmarshal Hrun).
      case_bool_decide; [done|].
      unfold afterEvents, nativeCalls. simpl. f_equal.
      apply raiseHardwareTrap_trace.
  - intros writes Hrun.
    rewrite (invokeFunction_completes _ _ _ _ Hlen Hmarshal Hrun).
    destruct (FunctionType_ret _) as [|declaredResult]; [done|].
    assert (length (applyWrites thunkMemory writes) = length thunkMemory)
      as Hkept.
    { unfold applyWrites. clear. revert thunkMemory.
      induction writes as [|w writes IH]; intros memory; [done|].
      simpl. by rewrite IH, length_insert. }
    destruct (lookup_lt_is_Some_2 (applyWrites thunkMemory writes)
                (length (FunctionType_parameters
                           (FunctionInstance_type function))))
      as [payload Hpayload].
    { rewrite Hkept, Hsize. simpl. lia. }
    exists payload. split; [done|]. split; [|done].
    unfold afterEvents. cbn [snd].
    unfold uint64 in *. by rewrite Hpayload.
Qed.

(** ** The invocation bridge: traps *)

Lemma loggedErrors_fmap (line : string → string) (l : list string) :
  loggedErrors ((λ x, LoggedError (ValueType := ValueType) (line x)) <$> l)
  = line <$> l.
Proof.
  induction l as [|x l IH]; [done|].
  unfold loggedErrors in *. csimpl. by rewrite IH.
Qed.

(** C2: when the native call traps with an access violation,
    [invokeFunction] throws cause [undefinedTableElement] if the faulting
    address is owned by a table, else cause [accessViolation] if it is owned
    by a memory, and otherwise throws nothing: it logs the described call
    stack and terminates the process.  A stack overflow trap throws cause
    [stackOverflow], an integer division trap throws cause
    [integerDivideByZeroOrIntegerOverflow]. *)
Theorem invokeFunction_trap_classification function parameters thunkMemory
    (trapType : HardwareTrapType) (trapOperand : uintp) trapCallStack :
  let functionType := FunctionInstance_type function in
  let nativeFunction := FunctionInstance_nativeFunction function in
  let description :=
    describeCallStack
      (truncateTrapCallStack trapCallStack Platform_captureCallStack) in
  let trace := (invokeFunction function parameters).1 in
  let outcome := (invokeFunction function parameters).2 in
  length parameters = length (FunctionType_parameters functionType) →
  marshal functionType parameters = mret thunkMemory →
  LLVMJIT_getInvokeThunk functionType nativeFunction thunkMemory
  = Traps trapType trapOperand trapCallStack →
  match trapType with
  | trap_accessViolation =>
      if isAddressOwnedByTable trapOperand
      then outcome = Thrown (mkException undefinedTableElement description)
      else if isAddressOwnedByMemory trapOperand
      then outcome = Thrown (mkException accessViolation description)
      else
        (∀ e : Exception, outcome ≠ Thrown e)
        ∧ outcome = Fatal (errorf EmptyString)
        ∧ loggedErrors trace
          = accessViolationLogHeader
            :: ((λ calledFunction, "  " +:+ calledFunction +:+ newline)
                <$> description)
  | trap_stackOverflow =>
      outcome = Thrown (mkException stackOverflow description)
  | trap_intDivideByZeroOrOverflow =>
      outcome
      = Thrown (mkException integerDivideByZeroOrIntegerOverflow description)
  | trap_none => outcome = Returned emptyResult
  end.
Proof.
  intros functionType nativeFunction description trace outcome
    Hlen Hmarshal Hrun.
  subst trace outcome.
  rewrite (invokeFunction_traps _ _ _ _ _ _ Hlen Hmarshal Hrun).
  fold description.
  destruct trapType; simpl; try done.
  destruct (isAddressOwnedByTable trapOperand); [done|].
  destruct (isAddressOwnedByMemory trapOperand); [done|].
  rewrite forEach_emit.
  split; [done|]. split; [done|].
  unfold afterEvents, mbind, M_bind. simpl.
  rewrite app_nil_r. unfold loggedErrors at 1. simpl. f_equal.
  apply loggedErrors_fmap.
Qed.

Lemma truncateTrapCallStack_split trapCallStack callerStack :
  let trapFrames := CallStack_stackFrames trapCallStack in
  let callerSize := length (CallStack_stackFrames callerStack) in
  ∃ removed : list StackFrame,
    trapFrames
    = CallStack_stackFrames (truncateTrapCallStack trapCallStack callerStack)
      ++ removed
    ∧ (callerSize + 1 ≤ length trapFrames → length removed = callerSize + 1)
    ∧ (length trapFrames < callerSize + 1 → removed = []).
Proof.
  intros trapFrames callerSize. unfold truncateTrapCallStack.
  fold trapFrames callerSize.
  case_bool_decide as Hsize; simpl.
  - exists (drop (length trapFrames - callerSize - 1) trapFrames).
    rewrite resize_le by lia. rewrite take_drop.
    split; [done|]. split; [|lia].
    intros _. rewrite length_drop. lia.
  - exists []. rewrite app_nil_r.
    split; [done|]. split; [lia|done].
Qed.

Lemma CallStack_eta callStack :
  mkCallStack (CallStack_stackFrames callStack) = callStack.
Proof. by destruct callStack. Qed.

(** C10: when the native call traps and the trap-time stack has at least one
    frame more than the caller's stack captured before the thunk call, the
    last (caller frame count + 1) frames of the trap-time stack are removed
    before it is described; otherwise no frame is removed and the whole
    trap-time stack is described. *)
Theorem trap_stack_truncated_by_count function parameters thunkMemory
    (trapType : HardwareTrapType) (trapOperand : uintp) trapCallStack :
  let functionType := FunctionInstance_type function in
  let nativeFunction := FunctionInstance_nativeFunction function in
  let trapFrames := CallStack_stackFrames trapCallStack in
  let callerSize := length (CallStack_stackFrames Platform_captureCallStack) in
  length parameters = length (FunctionType_parameters functionType) →
  marshal functionType parameters = mret thunkMemory →
  LLVMJIT_getInvokeThunk functionType nativeFunction thunkMemory
  = Traps trapType trapOperand trapCallStack →
  trapType ≠ trap_none →
  ∃ reported removed : list StackFrame,
    trapFrames = reported ++ removed
    ∧ (callerSize + 1 ≤ length trapFrames → length removed = callerSize + 1)
    ∧ (length trapFrames < callerSize + 1 → removed = [])
    ∧ invokeFunction function parameters
      = afterEvents
          [GotInvokeThunk functionType; CapturedCallStack;
           CalledNative nativeFunction thunkMemory]
          (raiseHardwareTrap trapType trapOperand
             (describeCallStack (mkCallStack reported))).
Proof.
  intros functionType nativeFunction trapFrames callerSize
    Hlen Hmarshal Hrun Htrap.
  destruct (truncateTrapCallStack_split trapCallStack
              Platform_captureCallStack)
    as (removed & Hsplit & Hlong & Hshort).
  eexists _, removed. split; [exact Hsplit|].
  split; [exact Hlong|]. split; [exact Hshort|].
  rewrite (invokeFunction_traps _ _ _ _ _ _ Hlen Hmarshal Hrun).
  rewrite bool_decide_false by done.
  by rewrite CallStack_eta.
Qed.

(** C6, as amended: when the native call traps and the trap-time stack has
    at least one frame more than the caller's stack captured before the thunk
    call, then before the trap is classified the last (caller frame count +
    1) frames of the trap-time stack are removed, so at least one frame is;
    and if the trap-time stack ends with the calling frame followed by the
    frames of the caller's stack, what is reported is exactly the frames
    before them, those created inside the call. *)
Theorem trap_stack_truncation_when_long_enough function parameters
    thunkMemory (trapType : HardwareTrapType) (trapOperand : uintp)
    trapCallStack :
  let functionType := FunctionInstance_type function in
  let nativeFunction := FunctionInstance_nativeFunction function in
  let trapFrames := CallStack_stackFrames trapCallStack in
  let callerFrames := CallStack_stackFrames Platform_captureCallStack in
  length parameters = length (FunctionType_parameters functionType) →
  marshal functionType parameters = mret thunkMemory →
  LLVMJIT_getInvokeThunk functionType nativeFunction thunkMemory
  = Traps trapType trapOperand trapCallStack →
  trapType ≠ trap_none →
  length callerFrames + 1 ≤ length trapFrames →
  ∃ reported removed : list StackFrame,
    trapFrames = reported ++ removed
    ∧ length removed = length callerFrames + 1
    ∧ 1 ≤ length removed
    ∧ (∀ (inner : list StackFrame) (callingFrame : StackFrame),
         trapFrames = inner ++ callingFrame :: callerFrames →
         reported = inner)
    ∧ invokeFunction function parameters
      = afterEvents
          [GotInvokeThunk functionType; CapturedCallStack;
           CalledNative nativeFunction thunkMemory]
          (raiseHardwareTrap trapType trapOperand
             (describeCallStack (mkCallStack reported))).
Proof.
  intros functionType nativeFunction trapFrames callerFrames
    Hlen Hmarshal Hrun Htrap Hlong.
  destruct (truncateTrapCallStack_split trapCallStack
              Platform_captureCallStack)
    as (removed & Hsplit & Hcount & _).
  specialize (Hcount Hlong). fold trapFrames callerFrames in Hsplit, Hcount.
  eexists _, removed. split; [exact Hsplit|].
  split; [exact Hcount|]. split; [lia|]. split.
  - intros inner callingFrame Hshape.
    rewrite Hshape in Hsplit.
    apply (app_inj_2 _ _ _ _) in Hsplit; [by destruct Hsplit|].
    simpl. lia.
  - rewrite (invokeFunction_traps _ _ _ _ _ _ Hlen Hmarshal Hrun).
    rewrite bool_decide_false by done.
    by rewrite CallStack_eta.
Qed.

(** * Further properties of the code *)

(** ** More on the type-conformance check *)

(** X1: [isA] is true for exactly these pairs: a function and the signature
    it has, a global and the type (value type and mutability) it has, a table
    and a table type of the same element type whose size bound contains the
    table's, a memory and a memory type whose size bound contains the
    memory's.  No other object conforms to any other type. *)
Theorem isA_conformance object type :
  isA object type = true
  ↔ match object, type with
    | Object_function f, ObjectType_function expected =>
        expected = FunctionInstance_type f
    | Object_global g, ObjectType_global expected =>
        expected = GlobalInstance_type g
    | Object_table table, ObjectType_table expected =>
        TableType_elementType expected
        = TableType_elementType (TableInstance_type table)
        ∧ (SizeConstraints_min (TableType_size expected)
           ≤ SizeConstraints_min (TableType_size (TableInstance_type table)))%Z
        ∧ (SizeConstraints_max (TableType_size (TableInstance_type table))
           ≤ SizeConstraints_max (TableType_size expected))%Z
    | Object_memory memory, ObjectType_memory expected =>
        (SizeConstraints_min (MemoryType_size expected)
         ≤ SizeConstraints_min (MemoryType_size (MemoryInstance_type memory)))%Z
        ∧ (SizeConstraints_max (MemoryType_size (MemoryInstance_type memory))
           ≤ SizeConstraints_max (MemoryType_size expected))%Z
    | _, _ => False
    end.
Proof.
  destruct object as [f|g|table|memory],
           type as [expected|expected|expected|expected];
    unfold isA; simpl; try (split; [discriminate | contradiction]).
  - apply bool_decide_eq_true.
  - apply bool_decide_eq_true.
  - by rewrite andb_true_iff, bool_decide_eq_true, isSubset_spec.
  - apply isSubset_spec.
Qed.

(** X2: every object conforms to the type it carries: a function to the
    signature [getFunctionType] returns for it, a global, a table and a
    memory to their own [type] field. *)
Theorem isA_own_type :
  (∀ f : FunctionInstance (ValueType := ValueType),
     isA (TableElementType := TableElementType)
         (Object_function f) (ObjectType_function (getFunctionType f)) = true)
  ∧ (∀ g : GlobalInstance (ValueType := ValueType),
       isA (TableElementType := TableElementType)
           (Object_global g) (ObjectType_global (GlobalInstance_type g))
       = true)
  ∧ (∀ table : TableInstance (TableElementType := TableElementType),
       isA (ValueType := ValueType)
           (Object_table table) (ObjectType_table (TableInstance_type table))
       = true)
  ∧ (∀ memory : MemoryInstance,
       isA (ValueType := ValueType) (TableElementType := TableElementType)
           (Object_memory memory)
           (ObjectType_memory (MemoryInstance_type memory))
       = true).
Proof.
  repeat split; intros instance; unfold isA, getFunctionType; simpl.
  - by apply bool_decide_eq_true.
  - by apply bool_decide_eq_true.
  - apply andb_true_iff. split; [by apply bool_decide_eq_true|].
    apply isSubset_spec. lia.
  - apply isSubset_spec. lia.
Qed.

(** X3: conformance survives a widening of the expected type: an object that
    conforms to a table (memory) type also conforms to every table type of
    the same element type (memory type) whose size bound contains the bound
    of the first. *)
Theorem isA_widening object
    (expected wider : ObjectType (ValueType := ValueType)
                                 (TableElementType := TableElementType)) :
  isA object expected = true →
  match expected, wider with
  | ObjectType_table narrowTable, ObjectType_table wideTable =>
      TableType_elementType wideTable = TableType_elementType narrowTable
      ∧ isSubset (TableType_size wideTable) (TableType_size narrowTable)
        = true
  | ObjectType_memory narrowMemory, ObjectType_memory wideMemory =>
      isSubset (MemoryType_size wideMemory) (MemoryType_size narrowMemory)
      = true
  | _, _ => False
  end →
  isA object wider = true.
Proof.
  destruct object as [f|g|table|memory],
           expected as [narrow|narrow|narrow|narrow],
           wider as [wide|wide|wide|wide];
    unfold isA; simpl; try done.
  - rewrite !andb_true_iff, !bool_decide_eq_true, !isSubset_spec.
    intros (Helement & Hmin & Hmax) (Hsame & Hmin' & Hmax').
    split; [congruence|]. split; lia.
  - rewrite !isSubset_spec.
    intros (Hmin & Hmax) (Hmin' & Hmax'). split; lia.
Qed.

(** ** More on the global cell *)

(** X4: [createGlobal] does not look at the type tag of the initial value:
    whatever the tag, the new global reads back as the payload of the
    initial value under the value type of the global's declared type. *)
Theorem createGlobal_reads_back_declared_type heap (globalType : GlobalType)
    (v : Value) :
  getGlobalValue (createGlobal heap globalType v).2
                 (createGlobal heap globalType v).1
  = Some (mkValue (GlobalType_valueType globalType) (Value_i64 v)).
Proof.
  unfold getGlobalValue. by rewrite createGlobal_lookup.
Qed.

(** X5: [createGlobal] returns a handle that named no global before, adds
    exactly that handle to the heap, and leaves every other global as it
    was. *)
Theorem createGlobal_allocates heap (globalType : GlobalType) (v : Value) :
  let global := (createGlobal heap globalType v).1 in
  let heap' := (createGlobal heap globalType v).2 in
  getGlobalValue heap global = None
  ∧ dom heap' = {[global]} ∪ dom heap
  ∧ ∀ other : positive,
      getGlobalValue heap' other
      = if decide (other = global)
        then Some (mkValue (GlobalType_valueType globalType) (Value_i64 v))
        else getGlobalValue heap other.
Proof.
  intros global heap'.
  pose proof (createGlobal_fresh heap globalType v) as Hfresh.
  fold global in Hfresh.
  split; [unfold getGlobalValue; by rewrite Hfresh|].
  split; [apply dom_insert_L|].
  intros other. destruct (decide (other = global)) as [->|Hother].
  - unfold getGlobalValue, heap', global.
    by rewrite createGlobal_lookup.
  - unfold getGlobalValue, heap'. simpl.
    by rewrite lookup_insert_ne.
Qed.


(** X7: a [setGlobalValue] that passes its assertions returns what
    [getGlobalValue] read before it, makes the global read as the new value,
    leaves every other global as it was, keeps the set of globals, and keeps
    the type of the global. *)
Theorem setGlobalValue_effect heap (global : positive) (newValue : Value)
    (previous : Value) heap' :
  setGlobalValue heap global newValue = Some (previous, heap') →
  getGlobalValue heap global = Some previous
  ∧ (∀ other : positive,
       getGlobalValue heap' other
       = if decide (other = global) then Some newValue
         else getGlobalValue heap other)
  ∧ dom heap' = dom heap
  ∧ GlobalInstance_type <$> heap' !! global
    = GlobalInstance_type <$> heap !! global.
Proof.
  unfold setGlobalValue, getGlobalValue. intros Hset.
  destruct (heap !! global) as [instance|] eqn:Hlookup; simpl in *; [|done].
  case_bool_decide as Htype; [|done].
  destruct (GlobalType_isMutable (GlobalInstance_type instance)); [|done].
  simplify_eq. split; [done|]. split; [|split].
  - intros other. destruct (decide (other = global)) as [->|Hother].
    + rewrite lookup_insert_eq. simpl. by rewrite <- Htype, Value_eta.
    + by rewrite lookup_insert_ne.
  - rewrite dom_insert_L.
    apply subseteq_union_1_L, singleton_subseteq_l.
    by apply elem_of_dom_2 in Hlookup.
  - by rewrite lookup_insert_eq.
Qed.

(** X8: of two successive [setGlobalValue] on one global the last one wins:
    the second returns the value the first stored, and the heap it leaves is
    the heap a single store of the second value would have left. *)
Theorem setGlobalValue_twice heap (global : positive) (v1 v2 : Value)
    (previous : Value) heap1 :
  setGlobalValue heap global v1 = Some (previous, heap1) →
  Value_type v2 = Value_type v1 →
  ∃ heap2,
    setGlobalValue heap1 global v2 = Some (v1, heap2)
    ∧ setGlobalValue heap global v2 = Some (previous, heap2).
Proof.
  unfold setGlobalValue. intros Hset Hsame.
  destruct (heap !! global) as [instance|] eqn:Hlookup; simpl in *; [|done].
  case_bool_decide as Htype; [|done].
  destruct (GlobalType_isMutable (GlobalInstance_type instance)) eqn:Hm;
    [|done].
  simplify_eq. rewrite lookup_insert_eq. simpl.
  rewrite !bool_decide_true by congruence. rewrite Hm.
  eexists. split; [|reflexivity].
  by rewrite insert_insert_eq, <- Htype, Value_eta.
Qed.

(** X9: storing back the value just read changes nothing: when
    [getGlobalValue] reads [v] from a mutable global, [setGlobalValue] of [v]
    returns [v] and leaves the heap as it was. *)
Theorem setGlobalValue_of_read_value heap (global : positive)
    (instance : GlobalInstance) (v : Value) :
  heap !! global = Some instance →
  GlobalType_isMutable (GlobalInstance_type instance) = true →
  getGlobalValue heap global = Some v →
  setGlobalValue heap global v = Some (v, heap).
Proof.
  unfold setGlobalValue, getGlobalValue. intros Hlookup Hmutable Hget.
  rewrite Hlookup in *. simpl in *. simplify_eq. simpl.
  rewrite bool_decide_true by done.
  rewrite Hmutable. f_equal. f_equal.
  apply insert_id. rewrite Hlookup. by destruct instance.
Qed.

(** ** More on the call-stack describer *)

(** X10: the description of a frame does not depend on the frames around
    it: describing a stack made of two parts gives the description of the
    first part followed by that of the second, and the empty stack has the
    empty description. *)
Theorem describeCallStack_app (inner outer : list StackFrame) :
  describeCallStack (mkCallStack (inner ++ outer))
  = describeCallStack (mkCallStack inner)
    ++ describeCallStack (mkCallStack outer)
  ∧ describeCallStack (mkCallStack []) = [].
Proof.
  split; [|done].
  rewrite !describeCallStack_fmap. simpl. apply fmap_app.
Qed.

(** ** More on the invocation bridge *)

(** Either every argument has the type declared at its position, or the
    counts differ, or some position holds an argument of another type. *)
Lemma signature_match_cases (declared : list ValueType) parameters :
  Forall2 (λ declaredType v, declaredType = Value_type v) declared parameters
  ∨ (length parameters ≠ length declared
     ∨ ∃ (i : nat) (declaredType : ValueType) (v : Value),
         declared !! i = Some declaredType
         ∧ parameters !! i = Some v
         ∧ declaredType ≠ Value_type v).
Proof.
  revert parameters.
  induction declared as [|declaredType declared IH];
    intros [|parameter parameters]; simpl.
  - left. constructor.
  - right. left. lia.
  - right. left. lia.
  - destruct (decide (declaredType = Value_type parameter)) as [Hhead|Hhead].
    + destruct (IH parameters) as [Hrest|[Hlen|(i & ty & v & Hd & Hp & Hne)]].
      * left. by constructor.
      * right. left. lia.
      * right. right. by exists (S i), ty, v.
    + right. right. by exists 0, declaredType, parameter.
Qed.

Lemma signature_match_fmap (declared : list ValueType) parameters :
  Forall2 (λ declaredType v, declaredType = Value_type v) declared parameters
  ↔ Value_type <$> parameters = declared.
Proof.
  split.
  - induction 1 as [|declaredType v declared parameters Hhead _ IH];
      [done|]. by rewrite fmap_cons, IH, Hhead.
  - intros <-. induction parameters; csimpl; by constructor.
Qed.

(** What the [switch] on a trap type other than [none] ends in: a throw of
    one of the four trap causes with the description it was given and
    nothing logged, or the fatal error of an access violation that neither a
    table nor a memory owns. *)
Lemma raiseHardwareTrap_outcome {A : Type} (trapType : HardwareTrapType)
    (trapOperand : uintp) (callStackDescription : list string) :
  let raised :=
    raiseHardwareTrap (ValueType := ValueType) (A := A)
      trapType trapOperand callStackDescription in
  trapType ≠ trap_none →
  (∃ e : Exception,
     raised.2 = Thrown e
     ∧ Exception_cause e ≠ invokeSignatureMismatch
     ∧ Exception_callStack e = callStackDescription
     ∧ raised.1 = [])
  ∨ (raised.2 = Fatal (errorf EmptyString)
     ∧ trapType = trap_accessViolation
     ∧ isAddressOwnedByTable trapOperand = false
     ∧ isAddressOwnedByMemory trapOperand = false).
Proof.
  intros raised Htrap. subst raised. unfold raiseHardwareTrap.
  destruct trapType; [done|..].
  - destruct (isAddressOwnedByTable trapOperand) eqn:Htable;
      [left; by eexists|].
    destruct (isAddressOwnedByMemory trapOperand) eqn:Hmemory;
      [left; by eexists|].
    right. by rewrite forEach_emit.
  - left. by eexists.
  - left. by eexists.
Qed.

Lemma raiseHardwareTrap_only_logs {A : Type} (trapType : HardwareTrapType)
    (trapOperand : uintp) (callStackDescription : list string) :
  Forall (λ ev, match ev with LoggedError _ => True | _ => False end)
    (raiseHardwareTrap (ValueType := ValueType) (A := A)
       trapType trapOperand callStackDescription).1.
Proof.
  unfold raiseHardwareTrap.
  destruct trapType; try by constructor.
  destruct (isAddressOwnedByTable trapOperand); [by constructor|].
  destruct (isAddressOwnedByMemory trapOperand); [by constructor|].
  rewrite forEach_emit. unfold mbind, M_bind. simpl.
  constructor; [done|]. rewrite app_nil_r.
  apply Forall_fmap, Forall_true. done.
Qed.

(** Case analysis on the run of the native call on the buffer that
    [Hmarshal] says was marshalled. *)
Ltac case_native_run function Hmarshal Hrun :=
  match type of Hmarshal with
  | _ = mret ?thunkMemory =>
      destruct (LLVMJIT_getInvokeThunk (FunctionInstance_type function)
                  (FunctionInstance_nativeFunction function) thunkMemory)
        as [writes|trapType trapOperand trapCallStack] eqn:Hrun
  end.


(** X12: [invokeFunction] terminates the process in one case only: the
    arguments were accepted and the native call trapped with an access
    violation at an address that neither a table nor a memory owns.  The
    fatal error is then the [Core::errorf] of line 133; the default arm of
    the [switch] is never reached. *)
Theorem invokeFunction_fatal_only_unattributed function parameters
    (fatalError : FatalError) :
  (invokeFunction function parameters).2 = Fatal fatalError →
  fatalError = errorf EmptyString
  ∧ ∃ thunkMemory (trapOperand : uintp) trapCallStack,
      marshal (FunctionInstance_type function) parameters = mret thunkMemory
      ∧ LLVMJIT_getInvokeThunk (FunctionInstance_type function)
          (FunctionInstance_nativeFunction function) thunkMemory
        = Traps trap_accessViolation trapOperand trapCallStack
      ∧ isAddressOwnedByTable trapOperand = false
      ∧ isAddressOwnedByMemory trapOperand = false.
Proof.
  intros Hfatal.
  destruct (signature_match_cases
              (FunctionType_parameters (FunctionInstance_type function))
              parameters) as [Hmatch|Hmismatch];
    [|by rewrite invokeFunction_mismatch in Hfatal].
  pose proof (Forall2_length _ _ _ Hmatch) as Hlen. symmetry in Hlen.
  pose proof (marshal_match _ _ Hmatch) as Hmarshal.
  case_native_run function Hmarshal Hrun.
  - rewrite (invokeFunction_completes _ _ _ _ Hlen Hmarshal Hrun) in Hfatal.
    by destruct (FunctionType_ret _).
  - rewrite (invokeFunction_traps _ _ _ _ _ _ Hlen Hmarshal Hrun) in Hfatal.
    case_bool_decide as Htrap; [done|].
    destruct (raiseHardwareTrap_outcome (A := Result (ValueType := ValueType))
                  trapType trapOperand
                (describeCallStack
                   (truncateTrapCallStack trapCallStack
                      Platform_captureCallStack)) Htrap)
      as [(e & Hthrown & _)|(Hunowned & -> & Htable & Hmemory)];
      unfold afterEvents in Hfatal; simpl in *; [congruence|].
    split; [congruence|]. eauto 8.
Qed.

(** X13: [invokeFunction] writes to the error log on the fatal path only:
    when it returns or throws, nothing was logged. *)
Theorem invokeFunction_logs_only_when_fatal function parameters :
  (∀ fatalError : FatalError,
     (invokeFunction function parameters).2 ≠ Fatal fatalError) →
  loggedErrors (invokeFunction function parameters).1 = [].
Proof.
  intros Hrecoverable.
  destruct (signature_match_cases
              (FunctionType_parameters (FunctionInstance_type function))
              parameters) as [Hmatch|Hmismatch];
    [|by rewrite invokeFunction_mismatch].
  pose proof (Forall2_length _ _ _ Hmatch) as Hlen. symmetry in Hlen.
  pose proof (marshal_match _ _ Hmatch) as Hmarshal.
  case_native_run function Hmarshal Hrun.
  - rewrite (invokeFunction_completes _ _ _ _ Hlen Hmarshal Hrun).
    by destruct (FunctionType_ret _).
  - rewrite (invokeFunction_traps _ _ _ _ _ _ Hlen Hmarshal Hrun) in *.
    case_bool_decide as Htrap; [done|].
    destruct (raiseHardwareTrap_outcome (A := Result (ValueType := ValueType))
                  trapType trapOperand
                (describeCallStack
                   (truncateTrapCallStack trapCallStack
                      Platform_captureCallStack)) Htrap)
      as [(e & _ & _ & _ & Hquiet)|(Hfatal & _)].
    + unfold afterEvents. simpl. by rewrite Hquiet.
    + by destruct (Hrecoverable (errorf EmptyString)).
Qed.

(** X14: once the arguments are accepted, whatever the native call does,
    [invokeFunction] first fetches the invoke thunk, then captures the
    caller's stack, then makes the native call; it does each of the three
    once, and afterwards only reads the result slot or logs. *)
Theorem invokeFunction_effects_in_order function parameters :
  Forall2 (λ declaredType v, declaredType = Value_type v)
          (FunctionType_parameters (FunctionInstance_type function))
          parameters →
  ∃ thunkMemory (rest : list Event),
    (invokeFunction function parameters).1
    = [GotInvokeThunk (FunctionInstance_type function); CapturedCallStack;
       CalledNative (FunctionInstance_nativeFunction function) thunkMemory]
      ++ rest
    ∧ Forall (λ ev, match ev with
                    | ReadSlot _ | LoggedError _ => True
                    | _ => False
                    end) rest.
Proof.
  intros Hmatch.
  pose proof (Forall2_length _ _ _ Hmatch) as Hlen. symmetry in Hlen.
  pose proof (marshal_match _ _ Hmatch) as Hmarshal.
  case_native_run function Hmarshal Hrun.
  - rewrite (invokeFunction_completes _ _ _ _ Hlen Hmarshal Hrun).
    eexists _, _. split; [reflexivity|].
    destruct (FunctionType_ret _); simpl; repeat constructor.
  - rewrite (invokeFunction_traps _ _ _ _ _ _ Hlen Hmarshal Hrun).
    eexists _, _. split; [reflexivity|].
    case_bool_decide; [by constructor|].
    eapply Forall_impl; [apply raiseHardwareTrap_only_logs|].
    by intros [].
Qed.

(** X15: the call-stack description of an exception thrown for a trap is
    the beginning of the description of the whole trap-time stack: frame by
    frame the same strings, cut after (trap frame count - caller frame count
    - 1) entries when the trap-time stack has more frames than the caller's
    stack, and complete otherwise.  In particular it is empty when the
    trap-time stack has exactly one frame more than the caller's. *)
Theorem trap_exception_describes_prefix function parameters thunkMemory
    (trapType : HardwareTrapType) (trapOperand : uintp) trapCallStack
    (e : Exception) :
  let trapSize := length (CallStack_stackFrames trapCallStack) in
  let callerSize := length (CallStack_stackFrames Platform_captureCallStack) in
  length parameters
  = length (FunctionType_parameters (FunctionInstance_type function)) →
  marshal (FunctionInstance_type function) parameters = mret thunkMemory →
  LLVMJIT_getInvokeThunk (FunctionInstance_type function)
    (FunctionInstance_nativeFunction function) thunkMemory
  = Traps trapType trapOperand trapCallStack →
  (invokeFunction function parameters).2 = Thrown e →
  Exception_callStack e
  = take (if decide (callerSize + 1 ≤ trapSize)
          then trapSize - callerSize - 1 else trapSize)
         (describeCallStack trapCallStack).
Proof.
  intros trapSize callerSize Hlen Hmarshal Hrun Hthrown.
  rewrite (invokeFunction_traps _ _ _ _ _ _ Hlen Hmarshal Hrun) in Hthrown.
  case_bool_decide as Htrap; [done|].
  destruct (raiseHardwareTrap_outcome (A := Result (ValueType := ValueType))
              trapType trapOperand
              (describeCallStack
                 (truncateTrapCallStack trapCallStack
                    Platform_captureCallStack)) Htrap)
    as [(e' & Hthrown' & _ & Hdescription & _)|(Hfatal & _)];
    unfold afterEvents in Hthrown; simpl in *; [|congruence].
  assert (e' = e) as -> by congruence.
  rewrite Hdescription, !describeCallStack_fmap.
  unfold truncateTrapCallStack. fold trapSize callerSize.
  case_bool_decide; case_decide; try lia; simpl.
  - rewrite resize_le by (unfold trapSize; lia). by rewrite fmap_take.
  - rewrite take_ge; [done|]. rewrite length_fmap. by fold trapSize.
Qed.

(** ** More on the result slot *)

Lemma applyWrites_length (thunkMemory : list uint64)
    (writes : list (nat * uint64)) :
  length (applyWrites thunkMemory writes) = length thunkMemory.
Proof.
  unfold applyWrites. revert thunkMemory.
  induction writes as [|w writes IH]; intros memory; [done|].
  simpl. by rewrite IH, length_insert.
Qed.

Lemma applyWrites_app (thunkMemory : list uint64)
    (before after : list (nat * uint64)) :
  applyWrites thunkMemory (before ++ after)
  = applyWrites (applyWrites thunkMemory before) after.
Proof. apply foldl_app. Qed.

Lemma applyWrites_untouched (thunkMemory : list uint64)
    (writes : list (nat * uint64)) (slot : nat) :
  Forall (λ w, w.1 ≠ slot) writes →
  applyWrites thunkMemory writes !! slot = thunkMemory !! slot.
Proof.
  unfold applyWrites. intros Hwrites. revert thunkMemory.
  induction Hwrites as [|w writes Hw _ IH]; intros memory; [done|].
  simpl. rewrite IH. by apply list_lookup_insert_ne.
Qed.

(** X16: [invokeFunction] does not initialise the result slot.  For a
    function with a declared result whose native call completes, the payload
    returned is the last value the call stored in the slot after the
    parameters, and what [alloca] left in that slot when the call stored
    nothing there. *)
Theorem invokeFunction_result_slot function parameters
    (declaredResult : ValueType) (writes : list (nat * uint64)) :
  let functionType := FunctionInstance_type function in
  let count := length (FunctionType_parameters functionType) in
  let thunkMemory := (Value_i64 <$> parameters) ++ [stackGarbage count] in
  Forall2 (λ declaredType v, declaredType = Value_type v)
          (FunctionType_parameters functionType) parameters →
  FunctionType_ret functionType = ResultType_value declaredResult →
  LLVMJIT_getInvokeThunk functionType
    (FunctionInstance_nativeFunction function) thunkMemory
  = Completes writes →
  (Forall (λ w, w.1 ≠ count) writes →
   (invokeFunction function parameters).2
   = Returned (mkResult (ResultType_value declaredResult)
                        (stackGarbage count)))
  ∧ (∀ (before after : list (nat * uint64)) (stored : uint64),
       writes = before ++ (count, stored) :: after →
       Forall (λ w, w.1 ≠ count) after →
       (invokeFunction function parameters).2
       = Returned (mkResult (ResultType_value declaredResult) stored)).
Proof.
  intros functionType count thunkMemory Hmatch Hret Hrun.
  subst functionType count.
  pose proof (Forall2_length _ _ _ Hmatch) as Hlen. symmetry in Hlen.
  pose proof (marshal_match _ _ Hmatch) as Hmarshal.
  rewrite Hret in Hmarshal. simpl in Hmarshal. fold thunkMemory in Hmarshal.
  rewrite (invokeFunction_completes _ _ _ _ Hlen Hmarshal Hrun).
  rewrite Hret. unfold afterEvents. cbn [snd].
  assert (thunkMemory
          !! length (FunctionType_parameters (FunctionInstance_type function))
          = Some (stackGarbage
                    (length (FunctionType_parameters
                               (FunctionInstance_type function)))))
    as Hslot.
  { unfold thunkMemory.
    rewrite lookup_app_r by (rewrite length_fmap; lia).
    rewrite length_fmap, Hlen. by rewrite Nat.sub_diag. }
  clearbody thunkMemory. unfold uint64 in *.
  split.
  - intros Huntouched.
    rewrite applyWrites_untouched by done.
    unfold uint64 in *. by rewrite Hslot.
  - intros before after stored -> Hafter.
    rewrite applyWrites_app. simpl.
    change (foldl _ ?m after) with (applyWrites m after).
    rewrite applyWrites_untouched by done.
    rewrite list_lookup_insert_eq; [done|].
    rewrite applyWrites_length.
    by apply lookup_lt_Some in Hslot.
Qed.

(** X17: on a platform that reports trap type [none] for completed calls
    only, whenever [invokeFunction] returns, the argument types were the
    parameter types of the signature and the [Result] carries the result
    type of the signature. *)
Theorem invokeFunction_returns_declared_type function parameters
    (result : Result) :
  (∀ thunkMemory (trapOperand : uintp) trapCallStack,
     LLVMJIT_getInvokeThunk (FunctionInstance_type function)
       (FunctionInstance_nativeFunction function) thunkMemory
     ≠ Traps trap_none trapOperand trapCallStack) →
  (invokeFunction function parameters).2 = Returned result →
  Value_type <$> parameters
  = FunctionType_parameters (getFunctionType function)
  ∧ Result_type result = FunctionType_ret (getFunctionType function).
Proof.
  unfold getFunctionType. intros Hplatform Hreturned.
  destruct (signature_match_cases
              (FunctionType_parameters (FunctionInstance_type function))
              parameters) as [Hmatch|Hmismatch];
    [|by rewrite invokeFunction_mismatch in Hreturned].
  pose proof (Forall2_length _ _ _ Hmatch) as Hlen. symmetry in Hlen.
  pose proof (marshal_match _ _ Hmatch) as Hmarshal.
  split; [by apply signature_match_fmap|].
  case_native_run function Hmarshal Hrun.
  - rewrite (invokeFunction_completes _ _ _ _ Hlen Hmarshal Hrun)
      in Hreturned.
    destruct (FunctionType_ret _) eqn:Hret;
      unfold afterEvents in Hreturned; simpl in Hreturned;
      by simplify_eq.
  - rewrite (invokeFunction_traps _ _ _ _ _ _ Hlen Hmarshal Hrun)
      in Hreturned.
    case_bool_decide as Htrap; [subst; by destruct (Hplatform _ _ _ Hrun)|].
    destruct (raiseHardwareTrap_outcome (A := Result (ValueType := ValueType))
                trapType trapOperand
                (describeCallStack
                   (truncateTrapCallStack trapCallStack
                      Platform_captureCallStack)) Htrap)
      as [(e & Hthrown & _)|(Hfatal & _)];
      unfold afterEvents in Hreturned; simpl in *; congruence.
Qed.

End Properties.

(** * The describer under two platforms *)

Section TwoPlatforms.

Context {ValueType : Type} `{jit : !LLVMJIT (ValueType := ValueType)}.
Context (platform1 platform2 : Platform).

(** X18: the JIT comes first: for a stack whose every frame the JIT can
    describe, the description is the JIT's and is the same under any
    platform symbol resolver. *)
Theorem describeCallStack_jit_first (callStack : CallStack) :
  Forall (λ frame,
            is_Some (LLVMJIT_describeInstructionPointer (StackFrame_ip frame)))
         (CallStack_stackFrames callStack) →
  describeCallStack (platform := platform1) callStack
  = describeCallStack (platform := platform2) callStack
  ∧ Some <$> describeCallStack (platform := platform1) callStack
    = (λ frame, LLVMJIT_describeInstructionPointer (StackFrame_ip frame))
      <$> CallStack_stackFrames callStack.
Proof.
  intros Hknown. rewrite !describeCallStack_fmap.
  induction Hknown as [|frame rest [description Hframe] _ [IH1 IH2]];
    [done|].
  rewrite !fmap_cons. split.
  - rewrite IH1. unfold describeFrame. by rewrite Hframe.
  - rewrite IH2. unfold describeFrame. by rewrite Hframe.
Qed.

End TwoPlatforms.

(** * The properties on the concrete runtime *)

Section ScenarioProperties.

Import Scenario.

#[local] Existing Instances Scenario.jit Scenario.platform
  Scenario.process.

(** The arguments [i32 7, i32 9] do not fit the signature [(i32, i64)]:
    the call throws and the thunk is not run. *)
Lemma invokeFunction_signature_mismatch_witness :
  ∃ e : Exception,
    (invoke (binary 1%Z) [mkValue i32 7%Z; mkValue i32 9%Z]).2 = Thrown e
    ∧ Exception_cause e = invokeSignatureMismatch
    ∧ nativeCalls (invoke (binary 1%Z) [mkValue i32 7%Z; mkValue i32 9%Z]).1
      = [].
Proof.
  apply (invokeFunction_signature_mismatch (binary 1%Z)
           [mkValue i32 7%Z; mkValue i32 9%Z]).
  right. exists 1, i64, (mkValue i32 9%Z).
  split; [reflexivity|]. split; [reflexivity|]. discriminate.
Defined.

(** Native function 3 touches address 3500, which neither the table nor the
    memory owns: nothing is thrown, the stack is logged and the process
    ends. *)
Lemma invokeFunction_trap_classification_witness :
  (∀ e : Exception, (invoke (binary 3%Z) (arguments 3500%Z 9%Z)).2 ≠ Thrown e)
  ∧ (invoke (binary 3%Z) (arguments 3500%Z 9%Z)).2 = Fatal (errorf EmptyString)
  ∧ loggedErrors (invoke (binary 3%Z) (arguments 3500%Z 9%Z)).1
    = [accessViolationLogHeader; "  wasm!f+4" +:+ newline].
Proof.
  exact (invokeFunction_trap_classification (binary 3%Z) (arguments 3500%Z 9%Z)
           [3500; 9; 57005]%Z trap_accessViolation 3500%Z
           (frames [10; 30; 40; 50]%Z) eq_refl eq_refl eq_refl).
Defined.

(** Sizes within, below and above the expected bound. *)
Example isA_table_within :
  isA (tableObject 2%Z 5%Z) (objectIsTable 1%Z 10%Z) = true.
Proof. reflexivity. Qed.

Example isA_table_below :
  isA (tableObject 0%Z 5%Z) (objectIsTable 1%Z 10%Z) = false.
Proof. reflexivity. Qed.

Example isA_memory_above :
  isA (memoryObject 1%Z 11%Z) (objectIsMemory 1%Z 10%Z) = false.
Proof. reflexivity. Qed.

Example isA_memory_same :
  isA (memoryObject 1%Z 10%Z) (objectIsMemory 1%Z 10%Z) = true.
Proof. reflexivity. Qed.

Lemma isA_table_memory_containment_witness :
  isA (tableObject 2%Z 5%Z) (objectIsTable 1%Z 10%Z) = true
  ∧ isA (memoryObject 1%Z 11%Z) (objectIsMemory 1%Z 10%Z) = false.
Proof.
  destruct (isA_table_memory_containment (ValueType := WasmValueType)
              (TableElementType := WasmTableElementType))
    as [Htable Hmemory].
  split.
  - apply (Htable (mkTableInstance (anyfuncTable 2%Z 5%Z))
                  (anyfuncTable 1%Z 10%Z)).
    simpl. split; [reflexivity | lia].
  - apply (Hmemory
             (mkMemoryInstance (mkMemoryType (mkSizeConstraints 1%Z 11%Z)))
             (mkMemoryType (mkSizeConstraints 1%Z 10%Z))).
    simpl. right. lia.
Defined.

(** A function object is not a memory. *)
Lemma isA_kind_mismatch_witness :
  ObjectType_kind (objectIsMemory 0%Z 10%Z)
  ≠ Object_kind (functionObject 1%Z)
  ∧ isA (functionObject 1%Z) (objectIsMemory 0%Z 10%Z) = false.
Proof.
  split; [discriminate|].
  apply (isA_kind_mismatch (functionObject 1%Z) (objectIsMemory 0%Z 10%Z)).
  discriminate.
Defined.

(** Native function 1 gets the buffer [7, 9, garbage] and stores 42 in slot
    2, which is read back as the [i32] result. *)
Lemma invokeFunction_marshals_and_returns_witness :
  nativeCalls (invoke (binary 1%Z) (arguments 7%Z 9%Z)).1
  = [(1%Z, [7; 9; 57005]%Z)]
  ∧ (invoke (binary 1%Z) (arguments 7%Z 9%Z)).2
    = Returned (mkResult (ResultType_value i32) 42%Z)
  ∧ slotReads (invoke (binary 1%Z) (arguments 7%Z 9%Z)).1 = [2].
Proof.
  assert (Forall2 (λ declaredType v, declaredType = Value_type v)
            [i32; i64] (arguments 7%Z 9%Z)) as Hmatch
    by (repeat constructor).
  destruct (invokeFunction_marshals_and_returns (binary 1%Z) (arguments 7%Z 9%Z)
              Hmatch) as (_ & Hcalls & Hreturns).
  split; [exact Hcalls|].
  destruct (Hreturns [(2, 42%Z)] eq_refl)
    as (payload & Hpayload & Houtcome & Hreads).
  injection Hpayload as <-.
  split; [exact Houtcome | exact Hreads].
Defined.

(** A function without a result: one slot, no read, the empty [Result]. *)
Example invokeFunction_without_result :
  invoke (procedure 1%Z) [mkValue i64 9%Z]
  = ([GotInvokeThunk (mkFunctionType [i64] ResultType_none);
      CapturedCallStack; CalledNative 1%Z [9%Z]],
     Returned emptyResult).
Proof. reflexivity. Qed.

(** The two recoverable outcomes of an access violation. *)
Example invokeFunction_fault_in_table :
  (invoke (binary 3%Z) (arguments 1500%Z 9%Z)).2
  = Thrown (mkException undefinedTableElement ["wasm!f+4"%string]).
Proof. reflexivity. Qed.

Example invokeFunction_fault_in_memory :
  (invoke (binary 3%Z) (arguments 2500%Z 9%Z)).2
  = Thrown (mkException accessViolation ["wasm!f+4"%string]).
Proof. reflexivity. Qed.

(** Native function 2 traps five frames deep under a caller two frames deep:
    three frames are removed, [10; 20] are reported. *)
Lemma trap_stack_truncation_when_long_enough_witness :
  ∃ reported removed : list StackFrame,
    mkStackFrame <$> [10; 20; 30; 40; 50]%Z = reported ++ removed
    ∧ length removed = 3
    ∧ 1 ≤ length removed
    ∧ (∀ (inner : list StackFrame) (callingFrame : StackFrame),
         mkStackFrame <$> [10; 20; 30; 40; 50]%Z
         = inner ++ callingFrame :: (mkStackFrame <$> [40; 50]%Z) →
         reported = inner)
    ∧ invoke (binary 2%Z) (arguments 7%Z 9%Z)
      = afterEvents
          [GotInvokeThunk (FunctionInstance_type (binary 2%Z));
           CapturedCallStack; CalledNative 2%Z [7; 9; 57005]%Z]
          (raiseHardwareTrap trap_stackOverflow 0%Z
             (describe (mkCallStack reported))).
Proof.
  refine (trap_stack_truncation_when_long_enough (binary 2%Z)
            (arguments 7%Z 9%Z) [7; 9; 57005]%Z trap_stackOverflow 0%Z
            (frames [10; 20; 30; 40; 50]%Z) eq_refl eq_refl eq_refl _ _);
    [discriminate | simpl; lia].
Defined.

(** Native function 4: the trap-time stack [10; 20] is shorter than the
    caller's stack plus one.  The exception describes both frames: no frame
    was removed. *)
Lemma trap_stack_not_truncated_when_short :
  LLVMJIT_getInvokeThunk (FunctionInstance_type (binary 4%Z)) 4%Z
    [7; 9; 57005]%Z
  = Traps trap_intDivideByZeroOrOverflow 0%Z (frames [10; 20]%Z)
  ∧ ∃ e : Exception,
      (invoke (binary 4%Z) (arguments 7%Z 9%Z)).2 = Thrown e
      ∧ ¬ ∃ reported removed : list StackFrame,
            mkStackFrame <$> [10; 20]%Z = reported ++ removed
            ∧ 1 ≤ length removed
            ∧ Exception_callStack e = describe (mkCallStack reported).
Proof.
  split; [reflexivity|].
  eexists. split; [reflexivity|].
  intros (reported & removed & Hsplit & Hremoved & Hdescribed).
  apply (f_equal length) in Hsplit, Hdescribed.
  unfold describe in Hdescribed.
  rewrite describeCallStack_length in Hdescribed.
  rewrite length_app in Hsplit. simpl in *. lia.
Qed.

(** With no argument for a function of two parameters, [invokeFunction]
    throws by itself: no call stack is captured and the exception carries no
    description, unlike what [causeException] throws for the same cause. *)
Lemma invokeFunction_mismatch_bypasses_causeException :
  invoke (binary 1%Z) []
  = ([], Thrown (mkException invokeSignatureMismatch []))
  ∧ cause invokeSignatureMismatch
    = ([CapturedCallStack],
       Thrown (mkException invokeSignatureMismatch
                 ["<unknown function>"; "<unknown function>"]%string))
  ∧ invoke (binary 1%Z) [] ≠ cause invokeSignatureMismatch.
Proof. split; [reflexivity|]. split; [reflexivity|]. discriminate. Qed.

Lemma causeException_throws_and_mismatch_is_direct_witness :
  (∀ A : Type,
     causeException (ValueType := WasmValueType) (A := A) stackOverflow
     = ([CapturedCallStack],
        Thrown (mkException stackOverflow
                  (describe Platform_captureCallStack))))
  ∧ invoke (binary 1%Z) []
    = ([], Thrown (mkException invokeSignatureMismatch [])).
Proof.
  destruct (causeException_throws_and_mismatch_is_direct stackOverflow
              (binary 1%Z) []) as [Hcause Hinvoke].
  split; [exact Hcause|].
  apply Hinvoke. left. simpl. lia.
Defined.

(** Reading back a fresh [i64] global, and setting the global at address 1
    from 5 to 8. *)
Lemma global_create_get_set_witness :
  getGlobalValue
    (createGlobal globals (mkGlobalType i64 false) (mkValue i64 3%Z)).2
    (createGlobal globals (mkGlobalType i64 false) (mkValue i64 3%Z)).1
  = Some (mkValue i64 3%Z)
  ∧ ∃ previous heap',
      setGlobalValue globals 1%positive (mkValue i32 8%Z)
      = Some (previous, heap')
      ∧ getGlobalValue globals 1%positive = Some previous
      ∧ getGlobalValue heap' 1%positive = Some (mkValue i32 8%Z).
Proof.
  destruct (global_create_get_set globals) as [Hcreate Hset].
  split.
  - apply (Hcreate (mkGlobalType i64 false) (mkValue i64 3%Z)). reflexivity.
  - apply (Hset 1%positive (mkGlobalInstance (mkGlobalType i32 true) 5%Z)
             (mkValue i32 8%Z)); reflexivity.
Defined.

(** Three frames: one the JIT knows, one nobody knows, one the platform
    knows. *)
Lemma describeCallStack_per_frame_witness :
  length (describe (frames [10; 20; 30]%Z)) = 3
  ∧ describe (frames [10; 20; 30]%Z) !! 0 = Some "wasm!f+4"%string
  ∧ describe (frames [10; 20; 30]%Z) !! 1 = Some "<unknown function>"%string
  ∧ describe (frames [10; 20; 30]%Z) !! 2 = Some "invokeThunk"%string.
Proof.
  destruct (describeCallStack_per_frame (frames [10; 20; 30]%Z))
    as [Hlength Hframe].
  split; [exact Hlength|].
  split; [exact (Hframe 0 (mkStackFrame 10%Z) eq_refl)|].
  split; [exact (Hframe 1 (mkStackFrame 20%Z) eq_refl)|].
  exact (Hframe 2 (mkStackFrame 30%Z) eq_refl).
Defined.

(** Neither the JIT nor the platform knows address 20: its description is
    "<unknown function>", in other words not "unknown frame". *)
Lemma describeCallStack_placeholder_differs :
  LLVMJIT_describeInstructionPointer 20%Z = None
  ∧ Platform_describeInstructionPointer 20%Z = None
  ∧ describe (frames [20]%Z) = ["<unknown function>"%string]
  ∧ describe (frames [20]%Z) ≠ ["unknown frame"%string].
Proof. repeat split; discriminate. Qed.

(** Native function 2 (long trap-time stack) loses three frames; native
    function 4 (short trap-time stack) loses none. *)
Lemma trap_stack_truncated_by_count_witness :
  (∃ reported removed : list StackFrame,
     mkStackFrame <$> [10; 20; 30; 40; 50]%Z = reported ++ removed
     ∧ (2 + 1 ≤ 5 → length removed = 2 + 1)
     ∧ (5 < 2 + 1 → removed = [])
     ∧ invoke (binary 2%Z) (arguments 7%Z 9%Z)
       = afterEvents
           [GotInvokeThunk (FunctionInstance_type (binary 2%Z));
            CapturedCallStack; CalledNative 2%Z [7; 9; 57005]%Z]
           (raiseHardwareTrap trap_stackOverflow 0%Z
              (describe (mkCallStack reported))))
  ∧ (∃ reported removed : list StackFrame,
       mkStackFrame <$> [10; 20]%Z = reported ++ removed
       ∧ (2 + 1 ≤ 2 → length removed = 2 + 1)
       ∧ (2 < 2 + 1 → removed = [])
       ∧ invoke (binary 4%Z) (arguments 7%Z 9%Z)
         = afterEvents
             [GotInvokeThunk (FunctionInstance_type (binary 4%Z));
              CapturedCallStack; CalledNative 4%Z [7; 9; 57005]%Z]
             (raiseHardwareTrap trap_intDivideByZeroOrOverflow 0%Z
                (describe (mkCallStack reported)))).
Proof.
  split.
  - refine (trap_stack_truncated_by_count (binary 2%Z) (arguments 7%Z 9%Z)
              [7; 9; 57005]%Z trap_stackOverflow 0%Z
              (frames [10; 20; 30; 40; 50]%Z) eq_refl eq_refl eq_refl _).
    discriminate.
  - refine (trap_stack_truncated_by_count (binary 4%Z) (arguments 7%Z 9%Z)
              [7; 9; 57005]%Z trap_intDivideByZeroOrOverflow 0%Z
              (frames [10; 20]%Z) eq_refl eq_refl eq_refl _).
    discriminate.
Defined.

(** ** The further properties on the concrete runtime *)

(** A table of 2 to 5 elements conforms to "1 to 10", hence to "0 to 20". *)
Lemma isA_widening_witness :
  isA (tableObject 2%Z 5%Z) (objectIsTable 1%Z 10%Z) = true
  ∧ isA (tableObject 2%Z 5%Z) (objectIsTable 0%Z 20%Z) = true.
Proof.
  split; [reflexivity|].
  apply (isA_widening (tableObject 2%Z 5%Z) (objectIsTable 1%Z 10%Z)
           (objectIsTable 0%Z 20%Z)); [reflexivity|].
  split; reflexivity.
Defined.

(** Setting the global at address 1 from 5 to 8. *)
Lemma setGlobalValue_effect_witness :
  setGlobalValue globals 1%positive (mkValue i32 8%Z)
  = Some (mkValue i32 5%Z,
          <[1%positive := mkGlobalInstance (mkGlobalType i32 true) 8%Z]>
            globals)
  ∧ getGlobalValue globals 1%positive = Some (mkValue i32 5%Z)
  ∧ getGlobalValue
      (<[1%positive := mkGlobalInstance (mkGlobalType i32 true) 8%Z]> globals)
      2%positive
    = getGlobalValue globals 2%positive.
Proof.
  assert (setGlobalValue globals 1%positive (mkValue i32 8%Z)
          = Some (mkValue i32 5%Z,
                  <[1%positive
                    := mkGlobalInstance (mkGlobalType i32 true) 8%Z]> globals))
    as Hset by reflexivity.
  split; [exact Hset|].
  destruct (setGlobalValue_effect _ _ _ _ _ Hset)
    as (Hprevious & Hreads & _ & _).
  split; [exact Hprevious|].
  exact (Hreads 2%positive).
Defined.

(** Setting 8 then 9: the second store returns 8, and the heap is the one a
    single store of 9 leaves. *)
Lemma setGlobalValue_twice_witness :
  ∃ heap2,
    setGlobalValue
      (<[1%positive := mkGlobalInstance (mkGlobalType i32 true) 8%Z]> globals)
      1%positive (mkValue i32 9%Z)
    = Some (mkValue i32 8%Z, heap2)
    ∧ setGlobalValue globals 1%positive (mkValue i32 9%Z)
      = Some (mkValue i32 5%Z, heap2).
Proof.
  apply (setGlobalValue_twice globals 1%positive (mkValue i32 8%Z)
           (mkValue i32 9%Z) (mkValue i32 5%Z));
    reflexivity.
Defined.

Lemma setGlobalValue_of_read_value_witness :
  setGlobalValue globals 1%positive (mkValue i32 5%Z)
  = Some (mkValue i32 5%Z, globals).
Proof.
  apply (setGlobalValue_of_read_value globals 1%positive
           (mkGlobalInstance (mkGlobalType i32 true) 5%Z) (mkValue i32 5%Z));
    reflexivity.
Defined.

(** The fatal run of native function 3 at address 3500. *)
Lemma invokeFunction_fatal_only_unattributed_witness :
  (invoke (binary 3%Z) (arguments 3500%Z 9%Z)).2 = Fatal (errorf EmptyString)
  ∧ ∃ thunkMemory (trapOperand : uintp) trapCallStack,
      marshal (FunctionInstance_type (binary 3%Z)) (arguments 3500%Z 9%Z)
      = mret thunkMemory
      ∧ LLVMJIT_getInvokeThunk (FunctionInstance_type (binary 3%Z)) 3%Z
          thunkMemory
        = Traps trap_accessViolation trapOperand trapCallStack
      ∧ isAddressOwnedByTable trapOperand = false
      ∧ isAddressOwnedByMemory trapOperand = false.
Proof.
  split; [reflexivity|].
  exact (proj2 (invokeFunction_fatal_only_unattributed (binary 3%Z)
                  (arguments 3500%Z 9%Z) (errorf EmptyString) eq_refl)).
Defined.

(** A call that returns logs nothing. *)
Lemma invokeFunction_logs_only_when_fatal_witness :
  loggedErrors (invoke (binary 1%Z) (arguments 7%Z 9%Z)).1 = [].
Proof.
  apply (invokeFunction_logs_only_when_fatal (binary 1%Z)
           (arguments 7%Z 9%Z)).
  intros fatalError. discriminate.
Defined.

(** The effects of the call of native function 2, which traps. *)
Lemma invokeFunction_effects_in_order_witness :
  ∃ thunkMemory (rest : list Event),
    (invoke (binary 2%Z) (arguments 7%Z 9%Z)).1
    = [GotInvokeThunk (FunctionInstance_type (binary 2%Z));
       CapturedCallStack; CalledNative 2%Z thunkMemory] ++ rest
    ∧ Forall (λ ev, match ev with
                    | ReadSlot _ | LoggedError _ => True
                    | _ => False
                    end) rest.
Proof.
  apply (invokeFunction_effects_in_order (binary 2%Z) (arguments 7%Z 9%Z)).
  repeat constructor.
Defined.

(** Native function 2: five trap-time frames, two caller frames; the
    exception carries the first two of the five descriptions. *)
Lemma trap_exception_describes_prefix_witness :
  [("wasm!f+4")%string; ("<unknown function>")%string]
  = take 2 (describe (frames [10; 20; 30; 40; 50]%Z)).
Proof.
  exact (trap_exception_describes_prefix (binary 2%Z) (arguments 7%Z 9%Z)
           [7; 9; 57005]%Z trap_stackOverflow 0%Z
           (frames [10; 20; 30; 40; 50]%Z)
           (mkException stackOverflow
              [("wasm!f+4")%string; ("<unknown function>")%string])
           eq_refl eq_refl eq_refl eq_refl).
Defined.

(** With the idle JIT the result is the garbage of the slot; with native
    function 1 it is the 42 that was stored. *)
Lemma invokeFunction_result_slot_witness :
  (invokeIdle (binary 1%Z) (arguments 7%Z 9%Z)).2
  = Returned (mkResult (ResultType_value i32) 57005%Z)
  ∧ (invoke (binary 1%Z) (arguments 7%Z 9%Z)).2
    = Returned (mkResult (ResultType_value i32) 42%Z).
Proof.
  assert (Forall2 (λ declaredType v, declaredType = Value_type v)
            [i32; i64] (arguments 7%Z 9%Z)) as Hmatch
    by (repeat constructor).
  split.
  - refine (proj1 (invokeFunction_result_slot (jit := idleJit) (binary 1%Z)
                     (arguments 7%Z 9%Z) i32 [] Hmatch eq_refl eq_refl) _).
    constructor.
  - refine (proj2 (invokeFunction_result_slot (binary 1%Z)
                     (arguments 7%Z 9%Z) i32 [(2, 42%Z)] Hmatch eq_refl
                     eq_refl) [] [] 42%Z eq_refl _).
    constructor.
Defined.

Lemma invokeFunction_returns_declared_type_witness :
  Value_type <$> arguments 7%Z 9%Z = [i32; i64]
  ∧ Result_type (mkResult (ResultType_value i32) 42%Z) = ResultType_value i32.
Proof.
  apply (invokeFunction_returns_declared_type (binary 1%Z)
           (arguments 7%Z 9%Z) (mkResult (ResultType_value i32) 42%Z));
    [|reflexivity].
  intros thunkMemory trapOperand trapCallStack. discriminate.
Defined.

(** Frame 10 is the JIT's: a platform that names every address does not
    change its description. *)
Lemma describeCallStack_jit_first_witness :
  describe (frames [10; 10]%Z)
  = describeCallStack
      (platform := mkPlatform (λ _, Some "host"%string) (frames []))
      (frames [10; 10]%Z)
  ∧ Some <$> describe (frames [10; 10]%Z)
    = (λ frame, LLVMJIT_describeInstructionPointer (StackFrame_ip frame))
      <$> (mkStackFrame <$> [10; 10]%Z).
Proof.
  refine (describeCallStack_jit_first platform
            (mkPlatform (λ _, Some "host"%string) (frames []))
            (frames [10; 10]%Z) _).
  repeat constructor; by eexists.
Defined.

End ScenarioProperties.
